(** * happy-mongoose-timestamps: the blacklist matcher and the timestamp hooks

    A shallow embedding of [src/utils/index.js] (the path helpers) and of
    the two revisions of [src/index.js] (the plugin class and its hooks),
    followed by the properties of the specification that were checked
    against them.  [unnamed/part_001] holds the later revision of
    [index.js]; the first draft of the class that follows it in that file
    (no blacklist, no options beyond the field names) is not modelled. *)

From Equations Require Import Equations.
From Stdlib Require Import String Ascii List Bool Arith ZArith Lia Permutation.
Import ListNotations.

Open Scope string_scope.
Open Scope bool_scope.

(** ** JavaScript data *)

(** An instant is what [new Date()] yields: milliseconds since the epoch. *)
Definition instant := Z.

(** The scalar values that are stored under a field. *)
Inductive value : Type :=
| VUndefined
| VNull
| VBool (b : bool)
| VNum (n : Z)
| VStr (s : string)
| VDate (t : instant).

(** JavaScript truthiness ([!v] is [negb (truthy v)]). *)
Definition truthy (v : value) : bool :=
  match v with
  | VUndefined | VNull => false
  | VBool b => b
  | VNum n => negb (n =? 0)%Z
  | VStr s => negb (s =? "")
  | VDate _ => true
  end.

(** A plain object: its own enumerable keys in insertion order. *)
Definition object (A : Type) := list (string * A).

(** [o[k]]; [None] stands for [undefined]. *)
Fixpoint obj_get {A} (o : object A) (k : string) : option A :=
  match o with
  | [] => None
  | (k', v) :: r => if k' =? k then Some v else obj_get r k
  end.

(** [o[k] = v]: an existing key keeps its place, a new key goes last. *)
Fixpoint obj_set {A} (o : object A) (k : string) (v : A) : object A :=
  match o with
  | [] => [(k, v)]
  | (k', v') :: r => if k' =? k then (k', v) :: r else (k', v') :: obj_set r k v
  end.

(** [Object.keys(o)]. *)
Definition Object_keys {A} (o : object A) : list string := map fst o.

(** A field-update set maps dot-delimited paths to values; an update
    operation maps operators ([$set], [$setOnInsert], ...) to such sets. *)
Definition Fields := object value.
Definition UpdateOp := object Fields.

(** A string that may be [undefined]; it is falsy when undefined or empty. *)
Definition truthy_str (s : option string) : bool :=
  match s with
  | None => false
  | Some s => negb (s =? "")
  end.

(** [a || b] on optional strings. *)
Definition or_str (a : option string) (b : string) : string :=
  match a with
  | Some s => if s =? "" then b else s
  | None => b
  end.

(** The property key an optional string denotes in [o[k]]. *)
Definition prop_key (k : option string) : string :=
  match k with
  | Some s => s
  | None => "undefined"
  end.

(** ** Array and string primitives used by the helpers *)

(** [arr.indexOf(x)]: the first index holding [x], or [-1]. *)
Fixpoint indexOf (arr : list string) (x : string) : Z :=
  match arr with
  | [] => (-1)%Z
  | y :: r => if y =? x then 0%Z
              else let i := indexOf r x in
                   if (i <? 0)%Z then (-1)%Z else (i + 1)%Z
  end.

(** [s.split('.')]; the empty string splits into one empty segment. *)
Fixpoint split_dot (s : string) : list string :=
  match s with
  | EmptyString => [EmptyString]
  | String c r =>
      if Ascii.eqb c "." then EmptyString :: split_dot r
      else match split_dot r with
           | [] => [String c EmptyString]
           | seg :: segs => String c seg :: segs
           end
  end.

(** [arr.splice(-1, 1)] as used for its effect on [arr]: the last element
    goes, an empty array stays empty. *)
Definition splice_last (arr : list string) : list string := removelast arr.

(** [arr.join('.')]. *)
Definition join_dot (arr : list string) : string := String.concat "." arr.

(** [arr.some(f)], together with the elements the callback was run on. *)
Fixpoint some {A} (f : A -> bool) (arr : list A) : bool * list A :=
  match arr with
  | [] => (false, [])
  | x :: r => if f x then (true, [x])
              else let (b, seen) := some f r in (b, x :: seen)
  end.

(** ** [src/utils/index.js] *)

(** Modelled from the spec: the [constants] module is imported by both
    source files but is not among them.  The operators are the direct-set
    and the set-on-insert clause, spelled as in the update literal of the
    hooks; the default field names are those of the configuration table. *)
Definition SET_OPERATOR : string := "$set".
Definition SET_ON_INSERT_OPERATOR : string := "$setOnInsert".
Definition DEFAULT_CREATED_AT_FIELD : string := "createdAt".
Definition DEFAULT_UPDATED_AT_FIELD : string := "updatedAt".

(** A computation that returns or throws [new Error(msg)]. *)
Inductive result (A : Type) : Type :=
| Ok (a : A)
| Error (msg : string).
Arguments Ok {A} a.
Arguments Error {A} msg.

Definition getUpdateFields (updateOperation : option UpdateOp)
    (operator : option string) : result (option Fields) :=
  match updateOperation with
  | None => Error "updateOperation is undefined."
  | Some op =>
      if negb (truthy_str operator) then
        Error ("operator is undefined. Expected " ++ SET_OPERATOR ++ " or "
               ++ SET_ON_INSERT_OPERATOR ++ ".")
      else Ok (obj_get op (prop_key operator))
  end.

(** The path one segment up: split on dots, drop the last segment, join. *)
Definition newField (field : string) : string :=
  join_dot (splice_last (split_dot field)).

(** Whether a dot occurs in a string. *)
Fixpoint has_dot (s : string) : bool :=
  match s with
  | EmptyString => false
  | String c r => Ascii.eqb c "." || has_dot r
  end.

Lemma split_dot_nonempty (s : string) : split_dot s <> [].
Proof.
  destruct s as [|c r]; simpl; [discriminate|].
  destruct (Ascii.eqb c "."); [discriminate|].
  destruct (split_dot r); discriminate.
Qed.

Lemma split_dot_single (s : string) :
  has_dot s = false -> split_dot s = [s].
Proof.
  induction s as [|c r IH]; simpl; [reflexivity|].
  destruct (Ascii.eqb c "."); simpl; [discriminate|].
  intros H. rewrite (IH H). reflexivity.
Qed.

Lemma split_dot_several (s : string) :
  has_dot s = true -> exists a b rest, split_dot s = a :: b :: rest.
Proof.
  induction s as [|c r IH]; simpl; [discriminate|].
  destruct (Ascii.eqb c ".") eqn:Ec; simpl.
  - intros _. destruct (split_dot r) as [|b rest] eqn:Er.
    + exfalso. exact (split_dot_nonempty r Er).
    + exists "", b, rest. reflexivity.
  - intros H. destruct (IH H) as (a & b & rest & E). rewrite E.
    exists (String c a), b, rest. reflexivity.
Qed.

Lemma newField_nodot (s : string) : has_dot s = false -> newField s = "".
Proof.
  intros H. unfold newField, splice_last, join_dot.
  rewrite (split_dot_single s H). reflexivity.
Qed.

Lemma newField_cons (c : ascii) (r : string) :
  newField (String c r) = if has_dot r then String c (newField r) else "".
Proof.
  unfold newField, splice_last, join_dot. simpl split_dot.
  destruct (has_dot r) eqn:Hr.
  - destruct (split_dot_several r Hr) as (a & b & rest & E). rewrite E.
    destruct (Ascii.eqb c ".") eqn:Ec.
    + apply Ascii.eqb_eq in Ec. subst c.
      change (removelast ("" :: a :: b :: rest))
        with ("" :: removelast (a :: b :: rest)).
      change (removelast (a :: b :: rest))
        with (a :: removelast (b :: rest)).
      reflexivity.
    + change (removelast (String c a :: b :: rest))
        with (String c a :: removelast (b :: rest)).
      change (removelast (a :: b :: rest))
        with (a :: removelast (b :: rest)).
      destruct (removelast (b :: rest)); reflexivity.
  - rewrite (split_dot_single r Hr).
    destruct (Ascii.eqb c "."); reflexivity.
Qed.

Lemma newField_length (c : ascii) (r : string) :
  String.length (newField (String c r)) < String.length (String c r).
Proof.
  revert c. induction r as [|d r IH]; intros c.
  - rewrite newField_cons. simpl. lia.
  - rewrite newField_cons. destruct (has_dot (String d r)); simpl; [|lia].
    specialize (IH d). simpl in IH. lia.
Qed.

Equations? fieldIsBlacklisted (blacklist : list string) (field : string)
    : bool by wf (String.length field) lt :=
  fieldIsBlacklisted blacklist EmptyString := false;
  fieldIsBlacklisted blacklist (String c r)
    with (0 <=? indexOf blacklist (String c r))%Z := {
    | true := true
    | false := fieldIsBlacklisted blacklist (newField (String c r)) }.
Proof. apply newField_length. Qed.

Example fieldIsBlacklisted_readme :
  fieldIsBlacklisted ["foo"; "nested.field"] "foo.nested.value" = true.
Proof. reflexivity. Qed.

(** A parameter with a default value: [undefined] selects the default. *)
Definition with_default {A} (d : A) (x : option A) : A :=
  match x with
  | Some a => a
  | None => d
  end.

(** [blacklistedFieldExists] with the keys its callback was run on. *)
Definition blacklistedFieldExists_traced (blacklist : option (list string))
    (fieldsToCheck : option Fields) : bool * list string :=
  let blacklist := with_default [] blacklist in
  let fieldsToCheck := with_default [] fieldsToCheck in
  if Nat.eqb (List.length blacklist) 0
     || Nat.eqb (List.length (Object_keys fieldsToCheck)) 0
  then (false, [])
  else some (fun field => fieldIsBlacklisted blacklist field)
            (Object_keys fieldsToCheck).

Definition blacklistedFieldExists (blacklist : option (list string))
    (fieldsToCheck : option Fields) : bool :=
  fst (blacklistedFieldExists_traced blacklist fieldsToCheck).

(** ** The host: schema, documents, queries, and what a hook can do *)

(** The options object handed to the plugin; a switch is any value and is
    read through its truthiness. *)
Record Options : Type := mkOptions {
  opt_createdAt : option string;
  opt_updatedAt : option string;
  opt_blacklist : option (list string);
  opt_shouldUpdateSchema : value;
  opt_disableSaveHook : value;
  opt_forceCreateHook : value;
  opt_disableUpdateHook : value;
  opt_disableUpdateOneHook : value;
  opt_disableFindOneAndUpdate : value
}.

(** The literal [{}] taken when no options are given. *)
Definition no_options : Options :=
  mkOptions None None None VUndefined VUndefined VUndefined VUndefined
            VUndefined VUndefined.

(** The schema as far as the plugin touches it: the properties read as
    [schema[name]], the fields declared through [add] (with their type),
    and the callbacks registered through [pre], both in call order. *)
Record Schema (H : Type) : Type := mkSchema {
  schema_props : object value;
  schema_added : list (string * string);
  schema_pres : list (string * H)
}.
Arguments mkSchema {H}.
Arguments schema_props {H}.
Arguments schema_added {H}.
Arguments schema_pres {H}.

Definition schema_add {H} (s : Schema H) (field type : string) : Schema H :=
  mkSchema (schema_props s) (schema_added s ++ [(field, type)]) (schema_pres s).

Definition schema_pre {H} (s : Schema H) (op : string) (h : H) : Schema H :=
  mkSchema (schema_props s) (schema_added s) (schema_pres s ++ [(op, h)]).

(** What a hook does to the outside, in order. *)
Inductive event : Type :=
| EvNow (t : instant)                          (* new Date() *)
| EvSet (field : string) (v : value)          (* this[field] = v *)
| EvUpdate (conditions : Fields) (doc : UpdateOp) (* this.update(conditions, doc) *)
| EvNext.                                      (* next() *)

(** The state a hook runs in: its receiver, how often the clock has been
    read so far, and the events so far. *)
Record state (T : Type) : Type := mkState {
  this : T;
  reads : nat;
  log : list event
}.
Arguments mkState {T}.
Arguments this {T}.
Arguments reads {T}.
Arguments log {T}.

Inductive outcome (T A : Type) : Type :=
| Returned (a : A) (s : state T)
| Thrown (msg : string) (s : state T).
Arguments Returned {T A}.
Arguments Thrown {T A}.

Definition hook (T A : Type) : Type := state T -> outcome T A.

Definition ret {T A} (a : A) : hook T A := fun s => Returned a s.

Definition bind {T A B} (m : hook T A) (k : A -> hook T B) : hook T B :=
  fun s => match m s with
           | Returned a s' => k a s'
           | Thrown msg s' => Thrown msg s'
           end.

Notation "x <- m ;; k" := (bind m (fun x => k))
  (at level 61, m at next level, right associativity).
Notation "m ;; k" := (bind m (fun _ => k))
  (at level 61, right associativity).

Definition emit {T} (e : event) : hook T unit :=
  fun s => Returned tt (mkState (this s) (reads s) (log s ++ [e])).

(** [new Date()]: the clock's value at this read. *)
Definition newDate {T} (clock : nat -> instant) : hook T instant :=
  fun s => let t := clock (reads s) in
           Returned t (mkState (this s) (S (reads s)) (log s ++ [EvNow t])).

Definition next {T} : hook T unit := emit EvNext.

Definition getThis {T} : hook T T := fun s => Returned (this s) s.

(** A helper that throws makes the hook throw. *)
Definition lift {T A} (r : result A) : hook T A :=
  fun s => match r with
           | Ok a => Returned a s
           | Error msg => Thrown msg s
           end.

(** A document is an object; [isNew] is one of its properties. *)
Definition Doc := object value.

Definition prop (o : Doc) (k : string) : value :=
  with_default VUndefined (obj_get o k).

Definition setProp (k : string) (v : value) : hook Doc unit :=
  fun s => Returned tt (mkState (obj_set (this s) k v) (reads s)
                                (log s ++ [EvSet k v])).

(** A query knows the update it is about to send. *)
Record Query : Type := mkQuery { _update : option UpdateOp }.

Definition getUpdate : hook Query (option UpdateOp) :=
  fun s => Returned (_update (this s)) s.

(** [this.update(conditions, doc)] hands further clauses to the host. *)
Definition update_call (conditions : Fields) (doc : UpdateOp) : hook Query unit :=
  emit (EvUpdate conditions doc).

(** An object literal: the properties are defined left to right. *)
Definition obj_lit {A} (kvs : list (string * A)) : object A :=
  fold_left (fun o kv => obj_set o (fst kv) (snd kv)) kvs [].

(** [a && b] where [a] is an object or [undefined]. *)
Definition and_then {A} (a : option A) (b : A -> bool) : bool :=
  match a with
  | Some x => b x
  | None => false
  end.

(** Run a hook from scratch on a receiver. *)
Definition run {T A} (h : hook T A) (receiver : T) (n : nat) : outcome T A :=
  h (mkState receiver n []).

Definition final {T A} (o : outcome T A) : state T :=
  match o with
  | Returned _ s => s
  | Thrown _ s => s
  end.

(** How often the clock was read in a log. *)
Fixpoint count_now (l : list event) : nat :=
  match l with
  | [] => 0
  | EvNow _ :: r => S (count_now r)
  | _ :: r => count_now r
  end.

(** ** [src/index.js] *)

Module SrcIndex.

(** The two closures the class builds, with the variables they capture. *)
Inductive Hook : Type :=
| SaveFunc (createdAtField updatedAtField : string)
| UpdateFunc (createdAtField updatedAtField : string) (blacklist : list string).

(** An instance: the fields kept under the private symbols. *)
Record HappyMongooseTimestamps : Type := mkPlugin {
  _schema : Schema Hook;
  _options : Options;
  _blacklist : list string;
  _createdAt : string;
  _updatedAt : string
}.

Definition with_schema (p : HappyMongooseTimestamps) (s : Schema Hook)
    : HappyMongooseTimestamps :=
  mkPlugin s (_options p) (_blacklist p) (_createdAt p) (_updatedAt p).

Definition updateSchema (p : HappyMongooseTimestamps) (field : string)
    : result HappyMongooseTimestamps :=
  if negb (truthy (VStr field)) then
    Error "Failed to update schema, field is undefined."
  else Ok (with_schema p (schema_add (_schema p) field "Date")).

Definition handleUpdateSchema (p : HappyMongooseTimestamps)
    : result HappyMongooseTimestamps :=
  let createdAtFieldExists :=
    truthy (prop (schema_props (_schema p)) (_createdAt p)) in
  let updateFieldExists :=
    truthy (prop (schema_props (_schema p)) (_updatedAt p)) in
  match (if negb createdAtFieldExists then updateSchema p (_createdAt p)
         else Ok p) with
  | Error msg => Error msg
  | Ok p =>
      if negb updateFieldExists then updateSchema p (_updatedAt p) else Ok p
  end.

Definition constructor (schema : option (Schema Hook))
    (options : option Options) : result HappyMongooseTimestamps :=
  let options := with_default no_options options in
  match schema with
  | None => Error "Schema is required."
  | Some schema =>
      let p := mkPlugin schema options
                 (with_default [] (opt_blacklist options))
                 (or_str (opt_createdAt options) DEFAULT_CREATED_AT_FIELD)
                 (or_str (opt_updatedAt options) DEFAULT_UPDATED_AT_FIELD) in
      let shouldUpdateSchema := opt_shouldUpdateSchema (_options p) in
      if truthy shouldUpdateSchema then handleUpdateSchema p else Ok p
  end.

Definition saveFunc (clock : nat -> instant)
    (createdAtField updatedAtField : string) : hook Doc unit :=
  now <- newDate clock ;;
  doc <- getThis ;;
  (if truthy (prop doc "isNew") then
     setProp createdAtField (VDate now) ;;
     setProp updatedAtField (VDate now)
   else
     setProp updatedAtField (VDate now)) ;;
  next.

Definition getSaveHook (p : HappyMongooseTimestamps) : Hook :=
  SaveFunc (_createdAt p) (_updatedAt p).

Definition updateFunc (clock : nat -> instant)
    (createdAtField updatedAtField : string) (blacklist : list string)
    : hook Query unit :=
  now <- newDate clock ;;
  currentUpdateOp <- getUpdate ;;
  currentSetFields <- lift (getUpdateFields currentUpdateOp (Some SET_OPERATOR)) ;;
  currentSetOnInsertFields <-
    lift (getUpdateFields currentUpdateOp (Some SET_ON_INSERT_OPERATOR)) ;;
  let setFieldsAreBlacklisted :=
    and_then currentSetFields
      (fun f => blacklistedFieldExists (Some blacklist) (Some f)) in
  let setOnInsertFieldsAreBlacklisted :=
    and_then currentSetOnInsertFields
      (fun f => blacklistedFieldExists (Some blacklist) (Some f)) in
  if setFieldsAreBlacklisted || setOnInsertFieldsAreBlacklisted then next
  else
    update_call []
      (obj_lit [("$set", obj_lit [(updatedAtField, VDate now)]);
                ("$setOnInsert", obj_lit [(createdAtField, VDate now);
                                          (updatedAtField, VDate now)])]) ;;
    next.

Definition getUpdateHook (p : HappyMongooseTimestamps) : Hook :=
  UpdateFunc (_createdAt p) (_updatedAt p) (_blacklist p).

Definition save (p : HappyMongooseTimestamps) : HappyMongooseTimestamps :=
  let shouldDisableSaveHook := opt_disableSaveHook (_options p) in
  if truthy shouldDisableSaveHook then p
  else with_schema p (schema_pre (_schema p) "save" (getSaveHook p)).

Definition update (p : HappyMongooseTimestamps) : HappyMongooseTimestamps :=
  let shouldDisableUpdateHook := opt_disableUpdateHook (_options p) in
  if truthy shouldDisableUpdateHook then p
  else with_schema p (schema_pre (_schema p) "update" (getUpdateHook p)).

Definition updateOne (p : HappyMongooseTimestamps) : HappyMongooseTimestamps :=
  let shouldDisableUpdateOneHook := opt_disableUpdateOneHook (_options p) in
  if truthy shouldDisableUpdateOneHook then p
  else with_schema p (schema_pre (_schema p) "updateOne" (getUpdateHook p)).

(** The default export: build the instance, then attach the hooks to the
    schema it shares with the caller. *)
Definition default_export (schema : option (Schema Hook))
    (options : option Options) : result (Schema Hook) :=
  match constructor schema options with
  | Error msg => Error msg
  | Ok plugin => Ok (_schema (updateOne (update (save plugin))))
  end.

End SrcIndex.

(** ** [unnamed/part_001]: the revision of [index.js] with [forceCreateHook]
     and the [findOneAndUpdate] hook *)

Module Part001.

Inductive Hook : Type :=
| SaveFunc (createdAtField updatedAtField : string)
           (shouldDisableSaveHook shouldForceCreateHook : bool)
| UpdateFunc (createdAtField updatedAtField : string) (blacklist : list string).

Record HappyMongooseTimestamps : Type := mkPlugin {
  _schema : Schema Hook;
  _options : Options;
  _blacklist : list string;
  _createdAt : string;
  _updatedAt : string
}.

Definition with_schema (p : HappyMongooseTimestamps) (s : Schema Hook)
    : HappyMongooseTimestamps :=
  mkPlugin s (_options p) (_blacklist p) (_createdAt p) (_updatedAt p).

Definition updateSchema (p : HappyMongooseTimestamps) (field : string)
    : result HappyMongooseTimestamps :=
  if negb (truthy (VStr field)) then
    Error "Failed to update schema, field is undefined."
  else Ok (with_schema p (schema_add (_schema p) field "Date")).

Definition handleUpdateSchema (p : HappyMongooseTimestamps)
    : result HappyMongooseTimestamps :=
  let createdAtFieldExists :=
    truthy (prop (schema_props (_schema p)) (_createdAt p)) in
  let updateFieldExists :=
    truthy (prop (schema_props (_schema p)) (_updatedAt p)) in
  match (if negb createdAtFieldExists then updateSchema p (_createdAt p)
         else Ok p) with
  | Error msg => Error msg
  | Ok p =>
      if negb updateFieldExists then updateSchema p (_updatedAt p) else Ok p
  end.

Definition constructor (schema : option (Schema Hook))
    (options : option Options) : result HappyMongooseTimestamps :=
  let options := with_default no_options options in
  match schema with
  | None => Error "Schema is required."
  | Some schema =>
      let p := mkPlugin schema options
                 (with_default [] (opt_blacklist options))
                 (or_str (opt_createdAt options) DEFAULT_CREATED_AT_FIELD)
                 (or_str (opt_updatedAt options) DEFAULT_UPDATED_AT_FIELD) in
      let shouldUpdateSchema := opt_shouldUpdateSchema (_options p) in
      if truthy shouldUpdateSchema then handleUpdateSchema p else Ok p
  end.

Definition saveFunc (clock : nat -> instant)
    (createdAtField updatedAtField : string)
    (shouldDisableSaveHook shouldForceCreateHook : bool) : hook Doc unit :=
  doc <- getThis ;;
  let canEnterSaveFunction :=
    negb (shouldDisableSaveHook
          && (negb shouldForceCreateHook || negb (truthy (prop doc "isNew")))) in
  if negb canEnterSaveFunction then next
  else
    now <- newDate clock ;;
    doc <- getThis ;;
    (if truthy (prop doc "isNew") then
       setProp createdAtField (VDate now) ;;
       setProp updatedAtField (VDate now)
     else
       setProp updatedAtField (VDate now)) ;;
    next.

Definition getSaveHook (p : HappyMongooseTimestamps) : Hook :=
  let shouldDisableSaveHook := truthy (opt_disableSaveHook (_options p)) in
  let shouldForceCreateHook := truthy (opt_forceCreateHook (_options p)) in
  SaveFunc (_createdAt p) (_updatedAt p)
           shouldDisableSaveHook shouldForceCreateHook.

Definition updateFunc (clock : nat -> instant)
    (createdAtField updatedAtField : string) (blacklist : list string)
    : hook Query unit :=
  now <- newDate clock ;;
  currentUpdateOp <- getUpdate ;;
  currentSetFields <- lift (getUpdateFields currentUpdateOp (Some SET_OPERATOR)) ;;
  currentSetOnInsertFields <-
    lift (getUpdateFields currentUpdateOp (Some SET_ON_INSERT_OPERATOR)) ;;
  let setFieldsAreBlacklisted :=
    and_then currentSetFields
      (fun f => blacklistedFieldExists (Some blacklist) (Some f)) in
  let setOnInsertFieldsAreBlacklisted :=
    and_then currentSetOnInsertFields
      (fun f => blacklistedFieldExists (Some blacklist) (Some f)) in
  if setFieldsAreBlacklisted || setOnInsertFieldsAreBlacklisted then next
  else
    update_call []
      (obj_lit [("$set", obj_lit [(updatedAtField, VDate now)]);
                ("$setOnInsert", obj_lit [(createdAtField, VDate now)])]) ;;
    next.

Definition getUpdateHook (p : HappyMongooseTimestamps) : Hook :=
  UpdateFunc (_createdAt p) (_updatedAt p) (_blacklist p).

Definition save (p : HappyMongooseTimestamps) : HappyMongooseTimestamps :=
  with_schema p (schema_pre (_schema p) "save" (getSaveHook p)).

Definition update (p : HappyMongooseTimestamps) : HappyMongooseTimestamps :=
  let shouldDisableUpdateHook := truthy (opt_disableUpdateHook (_options p)) in
  if shouldDisableUpdateHook then p
  else with_schema p (schema_pre (_schema p) "update" (getUpdateHook p)).

Definition updateOne (p : HappyMongooseTimestamps) : HappyMongooseTimestamps :=
  let shouldDisableUpdateOneHook :=
    truthy (opt_disableUpdateOneHook (_options p)) in
  if shouldDisableUpdateOneHook then p
  else with_schema p (schema_pre (_schema p) "updateOne" (getUpdateHook p)).

Definition findOneAndUpdate (p : HappyMongooseTimestamps)
    : HappyMongooseTimestamps :=
  let shouldDisableFindOneAndUpdateHook :=
    truthy (opt_disableFindOneAndUpdate (_options p)) in
  if shouldDisableFindOneAndUpdateHook then p
  else with_schema p
         (schema_pre (_schema p) "findOneAndUpdate" (getUpdateHook p)).

Definition default_export (schema : option (Schema Hook))
    (options : option Options) : result (Schema Hook) :=
  match constructor schema options with
  | Error msg => Error msg
  | Ok plugin =>
      Ok (_schema (findOneAndUpdate (updateOne (update (save plugin)))))
  end.

(** Running a registered closure on the receiver the host binds it to. *)
Definition run_save (clock : nat -> instant) (h : Hook) (doc : Doc) (n : nat)
    : option (outcome Doc unit) :=
  match h with
  | SaveFunc c u d f => Some (run (saveFunc clock c u d f) doc n)
  | UpdateFunc _ _ _ => None
  end.

End Part001.

(** ** [unnamed/part_001]: the first draft of the class, which checks the
       type of the two fields *)

Module Part001Draft.

(** The methods the draft hands to [pre] as callbacks. *)
Inductive Hook : Type :=
| HandleUpdate
| HandleInsert.

(** What [schema.path(name)] yields for a declared path. *)
Record SchemaType : Type := mkSchemaType { instance : option string }.

(** The schema as the draft uses it: its declared paths and the callbacks
    registered through [pre]. *)
Record DraftSchema : Type := mkDraftSchema {
  paths : object SchemaType;
  pres : list (string * Hook)
}.

Record HappyMongooseTimestamps : Type := mkPlugin {
  _schema : DraftSchema;
  _createdAt : string;
  _updatedAt : string
}.

(** lodash's [get(schemaType, 'instance')]: [undefined] for an absent
    object or an absent property. *)
Definition get_instance (schemaType : option SchemaType) : option string :=
  match schemaType with
  | Some t => instance t
  | None => None
  end.

(** [a !== b] on a value that is a string or [undefined] and a string. *)
Definition strict_neq (a : option string) (b : string) : bool :=
  match a with
  | Some s => negb (s =? b)
  | None => true
  end.

Definition validateField (schemaType : option SchemaType) (field : string)
    : result unit :=
  let fieldInstance := get_instance schemaType in
  if strict_neq fieldInstance "Date" then
    Error (field ++ " must be of type 'Date'.")
  else Ok tt.

Definition constructor (schema : DraftSchema) (options : option Options)
    : result HappyMongooseTimestamps :=
  let options := with_default no_options options in
  let p := mkPlugin schema
             (or_str (opt_createdAt options) "createdAt")
             (or_str (opt_updatedAt options) "updatedAt") in
  match validateField (obj_get (paths (_schema p)) (_createdAt p)) (_createdAt p) with
  | Error msg => Error msg
  | Ok _ =>
      match validateField (obj_get (paths (_schema p)) (_updatedAt p)) (_updatedAt p) with
      | Error msg => Error msg
      | Ok _ => Ok p
      end
  end.

Definition pre (p : HappyMongooseTimestamps) (op : string) (h : Hook)
    : HappyMongooseTimestamps :=
  mkPlugin (mkDraftSchema (paths (_schema p)) (pres (_schema p) ++ [(op, h)]))
           (_createdAt p) (_updatedAt p).

Definition update (p : HappyMongooseTimestamps) := pre p "update" HandleUpdate.
Definition updateOne (p : HappyMongooseTimestamps) := pre p "updateOne" HandleUpdate.
Definition create (p : HappyMongooseTimestamps) := pre p "create" HandleInsert.
Definition save (p : HappyMongooseTimestamps) := pre p "save" HandleInsert.

Definition default_export (schema : DraftSchema) (options : option Options)
    : result DraftSchema :=
  match constructor schema options with
  | Error msg => Error msg
  | Ok plugin => Ok (_schema (save (create (updateOne (update plugin)))))
  end.

End Part001Draft.

(** ** Notions the properties are stated with *)

(** The configuration an options argument resolves to. *)
Definition options_of (options : option Options) : Options :=
  with_default no_options options.

Definition created_name (options : option Options) : string :=
  or_str (opt_createdAt (options_of options)) DEFAULT_CREATED_AT_FIELD.

Definition updated_name (options : option Options) : string :=
  or_str (opt_updatedAt (options_of options)) DEFAULT_UPDATED_AT_FIELD.

Definition blacklist_of (options : option Options) : list string :=
  with_default [] (opt_blacklist (options_of options)).

(** The declaration made for a field the schema does not show yet. *)
Definition declare_if_missing (props : object value) (field : string)
    : list (string * string) :=
  if truthy (prop props field) then [] else [(field, "Date")].

(** A step that a truthy switch enables. *)
Definition when_set {A} (switch : value) (l : list A) : list A :=
  if truthy switch then l else [].

(** A registration that a truthy switch suppresses. *)
Definition unless {A} (switch : value) (l : list A) : list A :=
  if truthy switch then [] else l.

(** A path the draft's schema declares with the instance [Date]. *)
Definition declared_date (s : Part001Draft.DraftSchema) (field : string) : Prop :=
  exists t, obj_get (Part001Draft.paths s) field = Some t
            /\ Part001Draft.instance t = Some "Date".

(** The paths an update writes through its two inspected clauses. *)
Definition written_keys (op : UpdateOp) : list string :=
  (Object_keys (with_default [] (obj_get op SET_OPERATOR)) ++
   Object_keys (with_default [] (obj_get op SET_ON_INSERT_OPERATOR)))%list.


(** How often the continuation was called in a log. *)
Fixpoint count_next (l : list event) : nat :=
  match l with
  | [] => 0
  | EvNext :: r => S (count_next r)
  | _ :: r => count_next r
  end.

(** The documents handed to the host in a log. *)
Fixpoint updates_of (l : list event) : list UpdateOp :=
  match l with
  | [] => []
  | EvUpdate _ doc :: r => doc :: updates_of r
  | _ :: r => updates_of r
  end.

(** The fields written on the receiver in a log. *)
Fixpoint sets_of (l : list event) : list string :=
  match l with
  | [] => []
  | EvSet field _ :: r => field :: sets_of r
  | _ :: r => sets_of r
  end.


(** The message a hook threw, if it threw. *)
Definition thrown_message {T A} (o : outcome T A) : option string :=
  match o with
  | Returned _ _ => None
  | Thrown msg _ => Some msg
  end.

(** Whether a hook returned rather than threw. *)
Definition returned {T A} (o : outcome T A) : bool :=
  match o with
  | Returned _ _ => true
  | Thrown _ _ => false
  end.

(** The path relation of the specification: [P] is [E] or lies under it. *)
Definition covers (E P : string) : Prop :=
  P = E \/ prefix (E ++ ".") P = true.

(** A clause is covered when it is present and the matcher accepts one of
    its keys. *)
Definition clause_covered (blacklist : list string) (clause : option Fields)
    : Prop :=
  exists fields key,
    clause = Some fields /\ In key (Object_keys fields)
    /\ fieldIsBlacklisted blacklist key = true.

(** The clauses handed to the host when the hook stamps. *)
Definition stamp_later (createdAtField updatedAtField : string) (now : instant)
    : UpdateOp :=
  [("$set", [(updatedAtField, VDate now)]);
   ("$setOnInsert", [(createdAtField, VDate now)])].

Definition stamp_earlier (createdAtField updatedAtField : string) (now : instant)
    : UpdateOp :=
  [("$set", [(updatedAtField, VDate now)]);
   ("$setOnInsert",
    if createdAtField =? updatedAtField then [(createdAtField, VDate now)]
    else [(createdAtField, VDate now); (updatedAtField, VDate now)])].

(** Every value in the clauses a hook hands to the host. *)
Definition stamps_only (now : instant) (l : list event) : Prop :=
  forall conditions doc operator clause field v,
    In (EvUpdate conditions doc) l ->
    In (operator, clause) doc -> In (field, v) clause -> v = VDate now.

(** ** Facts about the primitives *)

Lemma indexOf_lower (arr : list string) (x : string) : (-1 <= indexOf arr x)%Z.
Proof.
  induction arr as [|y r IH]; simpl; [lia|].
  destruct (y =? x); [lia|].
  destruct (indexOf r x <? 0)%Z eqn:E; [lia|].
  apply Z.ltb_ge in E. lia.
Qed.

Lemma indexOf_In (arr : list string) (x : string) :
  (0 <=? indexOf arr x)%Z = true <-> In x arr.
Proof.
  induction arr as [|y r IH]; simpl.
  - split; [discriminate | contradiction].
  - destruct (y =? x) eqn:E.
    + apply String.eqb_eq in E. split; [auto | reflexivity].
    + apply String.eqb_neq in E.
      destruct (indexOf r x <? 0)%Z eqn:L.
      * apply Z.ltb_lt in L. split; [discriminate|].
        intros [H | H]; [contradiction|].
        apply IH in H. apply Z.leb_le in H. lia.
      * apply Z.ltb_ge in L. split.
        -- intros _. right. apply IH. apply Z.leb_le. exact L.
        -- intros _. apply Z.leb_le. lia.
Qed.

Lemma indexOf_not_In (arr : list string) (x : string) :
  (0 <=? indexOf arr x)%Z = false <-> ~ In x arr.
Proof.
  rewrite <- indexOf_In. destruct (0 <=? indexOf arr x)%Z; split; intros H.
  - discriminate.
  - exfalso. apply H. reflexivity.
  - discriminate.
  - reflexivity.
Qed.

Lemma prefix_nil (s : string) : prefix "" s = true.
Proof. destruct s; reflexivity. Qed.

Lemma prefix_cons (a b : ascii) (s t : string) :
  prefix (String a s) (String b t) = if Ascii.eqb a b then prefix s t else false.
Proof.
  simpl. destruct (ascii_dec a b) as [-> | N].
  - rewrite Ascii.eqb_refl. reflexivity.
  - apply Ascii.eqb_neq in N. rewrite N. reflexivity.
Qed.

Lemma prefix_length (a b : string) :
  prefix a b = true -> String.length a <= String.length b.
Proof.
  revert b. induction a as [|c a IH]; intros b; [simpl; lia|].
  destruct b as [|d b]; [discriminate|].
  rewrite prefix_cons. destruct (Ascii.eqb c d); [|discriminate].
  intros H. apply IH in H. simpl. lia.
Qed.

Lemma append_length (a b : string) :
  String.length (a ++ b) = String.length a + String.length b.
Proof. induction a as [|c a IH]; simpl; [reflexivity | rewrite IH; reflexivity]. Qed.

Lemma prefix_dot_short (E : string) : prefix (E ++ ".") "" = false.
Proof. destruct E; reflexivity. Qed.

Lemma has_dot_newField (s : string) : newField s <> "" -> has_dot s = true.
Proof.
  intros H. destruct (has_dot s) eqn:E; [reflexivity|].
  exfalso. apply H. apply newField_nodot. exact E.
Qed.

(** A path starts with [E + "."] exactly when [E] is its parent path or
    the parent path starts with [E + "."]. *)
Lemma prefix_dot_newField (E P : string) :
  prefix (E ++ ".") P = true <->
  has_dot P = true /\ (E = newField P \/ prefix (E ++ ".") (newField P) = true).
Proof.
  revert E. induction P as [|c r IH]; intros E.
  - rewrite prefix_dot_short. split; [discriminate|]. intros [H _]. discriminate.
  - rewrite newField_cons. destruct E as [|e E'].
    + change ("" ++ ".") with ".". rewrite prefix_cons, prefix_nil.
      rewrite (Ascii.eqb_sym "." c). simpl has_dot.
      destruct (Ascii.eqb c ".") eqn:Ec.
      * apply Ascii.eqb_eq in Ec. subst c. split; [|reflexivity].
        intros _. split; [reflexivity|].
        destruct (has_dot r); [right | left; reflexivity].
        rewrite prefix_cons, prefix_nil. reflexivity.
      * simpl. split; [discriminate|].
        intros [Hr [H | H]]; rewrite Hr in H; try discriminate.
        rewrite prefix_cons, (Ascii.eqb_sym "." c), Ec in H. discriminate.
    + change (String e E' ++ ".") with (String e (E' ++ ".")).
      rewrite prefix_cons. simpl has_dot.
      destruct (Ascii.eqb e c) eqn:Eec.
      * apply Ascii.eqb_eq in Eec. subst e.
        rewrite IH. destruct (has_dot r) eqn:Hr.
        -- rewrite orb_true_r, prefix_cons, Ascii.eqb_refl.
           split.
           ++ intros [_ [-> | H]]; auto.
           ++ intros [_ [H | H]]; split; auto.
              left. congruence.
        -- split; [intros [H _]; discriminate|].
           intros [_ [H | H]]; discriminate.
      * apply Ascii.eqb_neq in Eec.
        split; [discriminate|].
        intros [_ H]. destruct (has_dot r).
        -- destruct H as [H | H]; [congruence|].
           rewrite prefix_cons in H. apply Ascii.eqb_neq in Eec.
           rewrite Eec in H. discriminate.
        -- destruct H as [H | H]; discriminate.
Qed.

Lemma fieldIsBlacklisted_empty (blacklist : list string) :
  fieldIsBlacklisted blacklist "" = false.
Proof. simp fieldIsBlacklisted. reflexivity. Qed.

Lemma fieldIsBlacklisted_step (blacklist : list string) (field : string) :
  field <> "" ->
  fieldIsBlacklisted blacklist field =
  if (0 <=? indexOf blacklist field)%Z then true
  else fieldIsBlacklisted blacklist (newField field).
Proof.
  destruct field as [|c r]; [congruence|]. intros _.
  simp fieldIsBlacklisted.
  destruct (0 <=? indexOf blacklist (String c r))%Z; reflexivity.
Qed.

(** What the matcher decides, for every blacklist and every path. *)
Lemma fieldIsBlacklisted_covers (blacklist : list string) (field : string) :
  fieldIsBlacklisted blacklist field = true <->
  exists E, In E blacklist /\ E <> "" /\ covers E field.
Proof.
  remember (String.length field) as n eqn:Hn. revert field Hn.
  induction n as [n IH] using lt_wf_ind. intros field Hn.
  destruct field as [|c r].
  - rewrite fieldIsBlacklisted_empty. split; [discriminate|].
    intros (E & _ & HE & [H | H]); [congruence|].
    apply prefix_length in H. rewrite append_length in H. simpl in H. lia.
  - rewrite fieldIsBlacklisted_step by discriminate.
    destruct (0 <=? indexOf blacklist (String c r))%Z eqn:Hi.
    + split; [|reflexivity]. intros _. exists (String c r).
      split; [apply indexOf_In; exact Hi|]. split; [discriminate | left; reflexivity].
    + apply indexOf_not_In in Hi.
      rewrite (IH (String.length (newField (String c r))));
        [| subst n; apply newField_length | reflexivity].
      split; intros (E & HIn & HE & Hc); exists E; (split; [exact HIn|]);
        (split; [exact HE|]).
      * right. apply prefix_dot_newField. destruct Hc as [Hc | Hc].
        -- split; [|left; congruence].
           apply has_dot_newField. congruence.
        -- split; [|right; exact Hc].
           apply has_dot_newField. intros H0. rewrite H0 in Hc.
           apply prefix_length in Hc. rewrite append_length in Hc.
           simpl in Hc. lia.
      * destruct Hc as [Hc | Hc]; [subst E; contradiction|].
        apply prefix_dot_newField in Hc. destruct Hc as [_ [Hc | Hc]].
        -- left. congruence.
        -- right. exact Hc.
Qed.

Lemma fieldIsBlacklisted_nil (field : string) : fieldIsBlacklisted [] field = false.
Proof.
  destruct (fieldIsBlacklisted [] field) eqn:E; [|reflexivity].
  apply fieldIsBlacklisted_covers in E. destruct E as (E & [] & _).
Qed.

Lemma some_existsb {A} (f : A -> bool) (arr : list A) :
  fst (some f arr) = existsb f arr.
Proof.
  induction arr as [|x r IH]; simpl; [reflexivity|].
  destruct (f x); [reflexivity|].
  destruct (some f r) as [b seen]. exact IH.
Qed.

Lemma existsb_nil_blacklist (keys : list string) :
  existsb (fun field => fieldIsBlacklisted [] field) keys = false.
Proof.
  induction keys as [|k r IH]; simpl; [reflexivity|].
  rewrite fieldIsBlacklisted_nil. exact IH.
Qed.

(** The verdict on a field set is a disjunction over its keys. *)
Lemma blacklistedFieldExists_existsb (blacklist : list string) (fields : Fields) :
  blacklistedFieldExists (Some blacklist) (Some fields) =
  existsb (fun field => fieldIsBlacklisted blacklist field) (Object_keys fields).
Proof.
  unfold blacklistedFieldExists, blacklistedFieldExists_traced. simpl with_default.
  destruct blacklist as [|b bl].
  - simpl. symmetry. apply existsb_nil_blacklist.
  - destruct (Object_keys fields) as [|k ks] eqn:Ek; [reflexivity|].
    simpl orb. cbv iota. apply some_existsb.
Qed.

Lemma existsb_Permutation {A} (f : A -> bool) (l1 l2 : list A) :
  Permutation l1 l2 -> existsb f l1 = existsb f l2.
Proof.
  induction 1 as [|x l l' _ IH|x y l|l l' l'' _ IH1 _ IH2]; simpl.
  - reflexivity.
  - rewrite IH. reflexivity.
  - destruct (f x), (f y); reflexivity.
  - congruence.
Qed.

(** ** The path matcher *)

(** C1, as amended: for every blacklist B and every path P the matcher
    returns true if and only if some non-empty entry E of B satisfies
    P == E or P starts with E + "."; in particular an entry that is a strict
    descendant of the written path never matches it.  (An empty entry
    matches nothing, because the upward walk stops at the empty path.) *)
Theorem fieldIsBlacklisted_iff_entry :
  (forall (B : list string) (P : string),
      fieldIsBlacklisted B P = true <->
      exists E, In E B /\ E <> "" /\ (P = E \/ prefix (E ++ ".") P = true))
  /\
  (forall (E P : string),
      prefix (P ++ ".") E = true -> fieldIsBlacklisted [E] P = false).
Proof.
  split.
  - intros B P. apply fieldIsBlacklisted_covers.
  - intros E P HP.
    destruct (fieldIsBlacklisted [E] P) eqn:HB; [|reflexivity].
    apply fieldIsBlacklisted_covers in HB.
    destruct HB as (E' & [<- | []] & _ & Hc).
    apply prefix_length in HP. rewrite append_length in HP. simpl in HP.
    destruct Hc as [-> | Hc]; [lia|].
    apply prefix_length in Hc. rewrite append_length in Hc. simpl in Hc. lia.
Qed.

(** C1 as stated fails for an empty blacklist entry: the path ".a" starts
    with "" + ".", yet the matcher returns false on it. *)
Lemma fieldIsBlacklisted_empty_entry :
  ~ (fieldIsBlacklisted [""] ".a" = true <->
     exists E, In E [""] /\ (".a" = E \/ prefix (E ++ ".") ".a" = true)).
Proof.
  intros [_ H].
  assert (F : fieldIsBlacklisted [""] ".a" = true).
  { apply H. exists "". split; [left; reflexivity | right; reflexivity]. }
  vm_compute in F. discriminate.
Qed.

(** C5: the verdict on a field set is false, with the callback run on no
    key, whenever the blacklist is empty (or left out) or the field set is
    empty (or left out); and the matcher is false on every path under the
    empty blacklist. *)
Theorem blacklistedFieldExists_short_circuit :
  (forall (blacklist : option (list string)) (fields : option Fields),
      with_default [] blacklist = [] \/ with_default [] fields = [] ->
      blacklistedFieldExists blacklist fields = false /\
      blacklistedFieldExists_traced blacklist fields = (false, []))
  /\
  (forall P : string, fieldIsBlacklisted [] P = false).
Proof.
  split.
  - intros blacklist fields H.
    unfold blacklistedFieldExists, blacklistedFieldExists_traced.
    destruct H as [-> | ->].
    + split; reflexivity.
    + simpl. rewrite orb_true_r. split; reflexivity.
  - apply fieldIsBlacklisted_nil.
Qed.

Lemma blacklistedFieldExists_short_circuit_witness :
  blacklistedFieldExists (Some []) (Some [("foo", VStr "bar")]) = false /\
  blacklistedFieldExists_traced (Some ["foo"]) (Some []) = (false, []).
Proof.
  split.
  - apply (proj1 blacklistedFieldExists_short_circuit (Some []) (Some [("foo", VStr "bar")])).
    left. reflexivity.
  - apply (proj1 blacklistedFieldExists_short_circuit (Some ["foo"]) (Some [])).
    right. reflexivity.
Defined.

(** C7: the verdict on a field set does not depend on the order of its
    keys. *)
Theorem blacklistedFieldExists_permutation
    (blacklist : option (list string)) (fields1 fields2 : Fields) :
  Permutation (Object_keys fields1) (Object_keys fields2) ->
  blacklistedFieldExists blacklist (Some fields1) =
  blacklistedFieldExists blacklist (Some fields2).
Proof.
  intros H. destruct blacklist as [bl|].
  - rewrite !blacklistedFieldExists_existsb. apply existsb_Permutation. exact H.
  - reflexivity.
Qed.

Lemma blacklistedFieldExists_permutation_witness :
  blacklistedFieldExists (Some ["foo"]) (Some [("foo", VStr "bar"); ("bar", VStr "baz")]) =
  blacklistedFieldExists (Some ["foo"]) (Some [("bar", VStr "baz"); ("foo", VStr "bar")]).
Proof.
  apply (blacklistedFieldExists_permutation (Some ["foo"])
           [("foo", VStr "bar"); ("bar", VStr "baz")]
           [("bar", VStr "baz"); ("foo", VStr "bar")]).
  simpl. apply perm_swap.
Defined.

(** C9: the extraction throws exactly when the operation is absent or the
    operator is falsy; otherwise it returns the operation's clause of that
    name as it is. *)
Theorem getUpdateFields_throws_iff
    (updateOperation : option UpdateOp) (operator : option string) :
  ((exists msg, getUpdateFields updateOperation operator = Error msg) <->
   (updateOperation = None \/ truthy_str operator = false))
  /\
  (forall op name,
      updateOperation = Some op -> operator = Some name -> name <> "" ->
      getUpdateFields updateOperation operator = Ok (obj_get op name)).
Proof.
  split.
  - unfold getUpdateFields. destruct updateOperation as [op|].
    + destruct (truthy_str operator); simpl.
      * split; [intros [msg H]; discriminate | intros [H | H]; discriminate].
      * split; [intros _; right; reflexivity | intros _; eexists; reflexivity].
    + split; [intros _; left; reflexivity | intros _; eexists; reflexivity].
  - intros op name -> -> Hn. unfold getUpdateFields. simpl.
    apply String.eqb_neq in Hn. rewrite Hn. reflexivity.
Qed.

Lemma getUpdateFields_throws_iff_witness :
  getUpdateFields (Some [("$set", [("foo", VStr "bar")])]) (Some "$set")
  = Ok (Some [("foo", VStr "bar")]).
Proof.
  apply (proj2 (getUpdateFields_throws_iff
                  (Some [("$set", [("foo", VStr "bar")])]) (Some "$set"))
               [("$set", [("foo", VStr "bar")])] "$set" eq_refl eq_refl).
  discriminate.
Defined.

(** ** The update hook *)

Lemma and_then_covered (blacklist : list string) (clause : option Fields) :
  and_then clause (fun f => blacklistedFieldExists (Some blacklist) (Some f)) = true
  <-> clause_covered blacklist clause.
Proof.
  destruct clause as [fields|]; simpl.
  - rewrite blacklistedFieldExists_existsb, existsb_exists. split.
    + intros (key & HIn & Hk). exists fields, key. auto.
    + intros (fields' & key & Heq & HIn & Hk). injection Heq as <-.
      exists key. auto.
  - split; [discriminate|]. intros (fields & key & Heq & _). discriminate.
Qed.


Lemma getUpdateFields_set (op : UpdateOp) :
  getUpdateFields (Some op) (Some SET_OPERATOR) = Ok (obj_get op SET_OPERATOR).
Proof. reflexivity. Qed.

Lemma getUpdateFields_setOnInsert (op : UpdateOp) :
  getUpdateFields (Some op) (Some SET_ON_INSERT_OPERATOR)
  = Ok (obj_get op SET_ON_INSERT_OPERATOR).
Proof. reflexivity. Qed.

(** What the hook of [unnamed/part_001] does on a query that carries an
    update. *)
Lemma Part001_updateFunc_run (clock : nat -> instant) (c u : string)
    (blacklist : list string) (op : UpdateOp) (n : nat) :
  run (Part001.updateFunc clock c u blacklist) (mkQuery (Some op)) n =
  if and_then (obj_get op SET_OPERATOR)
       (fun f => blacklistedFieldExists (Some blacklist) (Some f))
     || and_then (obj_get op SET_ON_INSERT_OPERATOR)
          (fun f => blacklistedFieldExists (Some blacklist) (Some f))
  then Returned tt (mkState (mkQuery (Some op)) (S n) [EvNow (clock n); EvNext])
  else Returned tt (mkState (mkQuery (Some op)) (S n)
                      [EvNow (clock n);
                       EvUpdate [] (stamp_later c u (clock n));
                       EvNext]).
Proof.
  unfold run, Part001.updateFunc, bind, newDate, getUpdate. cbn [this reads log _update].
  rewrite getUpdateFields_set, getUpdateFields_setOnInsert. cbn [lift].
  destruct (_ || _); reflexivity.
Qed.

(** The same for the hook of [src/index.js]. *)
Lemma SrcIndex_updateFunc_run (clock : nat -> instant) (c u : string)
    (blacklist : list string) (op : UpdateOp) (n : nat) :
  run (SrcIndex.updateFunc clock c u blacklist) (mkQuery (Some op)) n =
  if and_then (obj_get op SET_OPERATOR)
       (fun f => blacklistedFieldExists (Some blacklist) (Some f))
     || and_then (obj_get op SET_ON_INSERT_OPERATOR)
          (fun f => blacklistedFieldExists (Some blacklist) (Some f))
  then Returned tt (mkState (mkQuery (Some op)) (S n) [EvNow (clock n); EvNext])
  else Returned tt (mkState (mkQuery (Some op)) (S n)
                      [EvNow (clock n);
                       EvUpdate [] (stamp_earlier c u (clock n));
                       EvNext]).
Proof.
  unfold run, SrcIndex.updateFunc, bind, newDate, getUpdate. cbn [this reads log _update].
  rewrite getUpdateFields_set, getUpdateFields_setOnInsert. cbn [lift].
  destruct (_ || _); [reflexivity|].
  unfold stamp_earlier, update_call, next, emit, obj_lit. cbn.
  destruct (c =? u); reflexivity.
Qed.

(** Without an update to read, both hooks throw after reading the clock. *)
Lemma Part001_updateFunc_no_update (clock : nat -> instant) (c u : string)
    (blacklist : list string) (n : nat) :
  run (Part001.updateFunc clock c u blacklist) (mkQuery None) n =
  Thrown "updateOperation is undefined."
         (mkState (mkQuery None) (S n) [EvNow (clock n)]).
Proof. reflexivity. Qed.


Lemma covered_of_true (blacklist : list string) (clause : option Fields) :
  and_then clause (fun f => blacklistedFieldExists (Some blacklist) (Some f)) = true ->
  clause_covered blacklist clause.
Proof. apply and_then_covered. Qed.




(** C4: when the blacklist covers a key of the direct-set clause or of the
    set-on-insert clause, the hook only calls the continuation: it hands the
    host no clause and leaves the update it read as it was. *)
Theorem updateFunc_covered_untouched (clock : nat -> instant) (c u : string)
    (blacklist : list string) (op : UpdateOp) (n : nat) :
  clause_covered blacklist (obj_get op SET_OPERATOR)
  \/ clause_covered blacklist (obj_get op SET_ON_INSERT_OPERATOR) ->
  run (Part001.updateFunc clock c u blacklist) (mkQuery (Some op)) n =
    Returned tt (mkState (mkQuery (Some op)) (S n) [EvNow (clock n); EvNext])
  /\
  run (SrcIndex.updateFunc clock c u blacklist) (mkQuery (Some op)) n =
    Returned tt (mkState (mkQuery (Some op)) (S n) [EvNow (clock n); EvNext]).
Proof.
  intros H.
  assert (E : and_then (obj_get op SET_OPERATOR)
                (fun f => blacklistedFieldExists (Some blacklist) (Some f))
              || and_then (obj_get op SET_ON_INSERT_OPERATOR)
                   (fun f => blacklistedFieldExists (Some blacklist) (Some f))
              = true).
  { apply orb_true_iff. destruct H as [H | H]; [left | right];
      apply and_then_covered; exact H. }
  rewrite Part001_updateFunc_run, SrcIndex_updateFunc_run, E.
  split; reflexivity.
Qed.

Lemma updateFunc_covered_untouched_witness :
  run (Part001.updateFunc (fun _ => 1000%Z) "createdAt" "updatedAt" ["foo"])
      (mkQuery (Some [("$set", [("foo", VStr "bar"); ("bar", VStr "baz")])])) 0 =
    Returned tt
      (mkState (mkQuery (Some [("$set", [("foo", VStr "bar"); ("bar", VStr "baz")])]))
               1 [EvNow 1000%Z; EvNext]).
Proof.
  apply (updateFunc_covered_untouched (fun _ => 1000%Z) "createdAt" "updatedAt"
           ["foo"] [("$set", [("foo", VStr "bar"); ("bar", VStr "baz")])] 0).
  left. apply covered_of_true. reflexivity.
Defined.

(** The README's nested write and an empty blacklist. *)
Example updateFunc_nested_write_covered :
  run (Part001.updateFunc (fun _ => 1000%Z) "createdAt" "updatedAt" ["foo"])
      (mkQuery (Some [("$set", [("foo.nested.value", VStr "bar")])])) 0 =
    Returned tt
      (mkState (mkQuery (Some [("$set", [("foo.nested.value", VStr "bar")])]))
               1 [EvNow 1000%Z; EvNext]).
Proof. reflexivity. Qed.

Example updateFunc_empty_blacklist_stamps :
  run (Part001.updateFunc (fun _ => 1000%Z) "createdAt" "updatedAt" [])
      (mkQuery (Some [("$set", [("foo", VStr "bar")])])) 0 =
    Returned tt (mkState (mkQuery (Some [("$set", [("foo", VStr "bar")])])) 1
      [EvNow 1000%Z; EvUpdate [] (stamp_later "createdAt" "updatedAt" 1000%Z);
       EvNext]).
Proof. reflexivity. Qed.

(** C10: for an update with neither a direct-set nor a set-on-insert
    clause, the extraction returns [undefined] for both without throwing,
    neither clause counts as covered, and the hook stamps. *)
Theorem updateFunc_no_clauses_stamps (clock : nat -> instant) (c u : string)
    (blacklist : list string) (op : UpdateOp) (n : nat) :
  obj_get op SET_OPERATOR = None ->
  obj_get op SET_ON_INSERT_OPERATOR = None ->
  getUpdateFields (Some op) (Some SET_OPERATOR) = Ok None
  /\ getUpdateFields (Some op) (Some SET_ON_INSERT_OPERATOR) = Ok None
  /\ ~ clause_covered blacklist (obj_get op SET_OPERATOR)
  /\ ~ clause_covered blacklist (obj_get op SET_ON_INSERT_OPERATOR)
  /\ run (Part001.updateFunc clock c u blacklist) (mkQuery (Some op)) n =
       Returned tt (mkState (mkQuery (Some op)) (S n)
         [EvNow (clock n);
          EvUpdate [] [("$set", [(u, VDate (clock n))]);
                       ("$setOnInsert", [(c, VDate (clock n))])];
          EvNext]).
Proof.
  intros Hs Hi.
  rewrite getUpdateFields_set, getUpdateFields_setOnInsert,
    Part001_updateFunc_run, Hs, Hi.
  repeat split; try reflexivity;
    intros (fields & key & Heq & _); discriminate.
Qed.

Lemma updateFunc_no_clauses_stamps_witness :
  run (Part001.updateFunc (fun _ => 1000%Z) "createdAt" "updatedAt" ["foo"])
      (mkQuery (Some [("$inc", [("visits", VNum 1)])])) 0 =
    Returned tt (mkState (mkQuery (Some [("$inc", [("visits", VNum 1)])])) 1
      [EvNow 1000%Z;
       EvUpdate [] [("$set", [("updatedAt", VDate 1000%Z)]);
                    ("$setOnInsert", [("createdAt", VDate 1000%Z)])];
       EvNext]).
Proof.
  apply (updateFunc_no_clauses_stamps (fun _ => 1000%Z) "createdAt" "updatedAt"
           ["foo"] [("$inc", [("visits", VNum 1)])] 0 eq_refl eq_refl).
Defined.

(** ** The save hook *)

(** What the save hook of [unnamed/part_001] does, case by case. *)
Lemma Part001_saveFunc_run (clock : nat -> instant) (c u : string)
    (d f : bool) (doc : Doc) (n : nat) :
  run (Part001.saveFunc clock c u d f) doc n =
  if d && (negb f || negb (truthy (prop doc "isNew"))) then
    Returned tt (mkState doc n [EvNext])
  else if truthy (prop doc "isNew") then
    Returned tt (mkState (obj_set (obj_set doc c (VDate (clock n))) u (VDate (clock n)))
                         (S n)
                         [EvNow (clock n); EvSet c (VDate (clock n));
                          EvSet u (VDate (clock n)); EvNext])
  else
    Returned tt (mkState (obj_set doc u (VDate (clock n))) (S n)
                         [EvNow (clock n); EvSet u (VDate (clock n)); EvNext]).
Proof.
  unfold run, Part001.saveFunc, bind, getThis, newDate. cbn [this reads log].
  destruct (d && _); cbn [negb this reads log app]; [reflexivity|].
  destruct (truthy (prop doc "isNew")); reflexivity.
Qed.

(** C3: on a new document, with [disableSaveHook] set, the registered save
    hook sets the created-field and the modified-field, both to the one
    instant it reads, exactly when [forceCreateHook] is set; when it is not
    set the hook writes nothing and leaves the document as it was.  Either
    way the continuation is called. *)
Theorem saveFunc_forceCreateHook (clock : nat -> instant)
    (p : Part001.HappyMongooseTimestamps) (doc : Doc) (n : nat) :
  truthy (opt_disableSaveHook (Part001._options p)) = true ->
  truthy (prop doc "isNew") = true ->
  exists o,
    Part001.run_save clock (Part001.getSaveHook p) doc n = Some o
    /\ (truthy (opt_forceCreateHook (Part001._options p)) = true ->
        o = Returned tt
              (mkState (obj_set (obj_set doc (Part001._createdAt p) (VDate (clock n)))
                                (Part001._updatedAt p) (VDate (clock n)))
                       (S n)
                       [EvNow (clock n);
                        EvSet (Part001._createdAt p) (VDate (clock n));
                        EvSet (Part001._updatedAt p) (VDate (clock n));
                        EvNext]))
    /\ (truthy (opt_forceCreateHook (Part001._options p)) = false ->
        o = Returned tt (mkState doc n [EvNext]))
    /\ ((exists t, In (EvSet (Part001._createdAt p) (VDate t)) (log (final o))
                   /\ In (EvSet (Part001._updatedAt p) (VDate t)) (log (final o)))
        <-> truthy (opt_forceCreateHook (Part001._options p)) = true).
Proof.
  intros Hd Hn. eexists. split; [reflexivity|].
  rewrite Part001_saveFunc_run, Hd, Hn.
  destruct (truthy (opt_forceCreateHook (Part001._options p))); cbn.
  - repeat split; try discriminate.
    exists (clock n). split; [right; left | right; right; left]; reflexivity.
  - repeat split; try discriminate.
    intros (t & [H | []] & _). discriminate.
Qed.

Lemma saveFunc_forceCreateHook_witness :
  exists o,
    Part001.run_save (fun _ => 1000%Z)
      (Part001.getSaveHook
         (Part001.mkPlugin (mkSchema [] [] [])
            (mkOptions None None None VUndefined (VBool true) (VBool true)
                       VUndefined VUndefined VUndefined)
            [] "createdAt" "updatedAt"))
      [("isNew", VBool true)] 0 = Some o
    /\ ((exists t, In (EvSet "createdAt" (VDate t)) (log (final o))
                   /\ In (EvSet "updatedAt" (VDate t)) (log (final o)))
        <-> true = true).
Proof.
  destruct (saveFunc_forceCreateHook (fun _ => 1000%Z)
              (Part001.mkPlugin (mkSchema [] [] [])
                 (mkOptions None None None VUndefined (VBool true) (VBool true)
                            VUndefined VUndefined VUndefined)
                 [] "createdAt" "updatedAt")
              [("isNew", VBool true)] 0 eq_refl eq_refl)
    as (o & Hrun & _ & _ & Hiff).
  exists o. split; [exact Hrun | exact Hiff].
Defined.

(** What the save hook of [src/index.js] does: it always stamps. *)
Lemma SrcIndex_saveFunc_run (clock : nat -> instant) (c u : string)
    (doc : Doc) (n : nat) :
  run (SrcIndex.saveFunc clock c u) doc n =
  if truthy (prop doc "isNew") then
    Returned tt (mkState (obj_set (obj_set doc c (VDate (clock n))) u (VDate (clock n)))
                         (S n)
                         [EvNow (clock n); EvSet c (VDate (clock n));
                          EvSet u (VDate (clock n)); EvNext])
  else
    Returned tt (mkState (obj_set doc u (VDate (clock n))) (S n)
                         [EvNow (clock n); EvSet u (VDate (clock n)); EvNext]).
Proof.
  unfold run, SrcIndex.saveFunc, bind, getThis, newDate. cbn [this reads log app].
  destruct (truthy (prop doc "isNew")); reflexivity.
Qed.

(** In [src/index.js] a disabled save hook is not registered at all, so
    there [forceCreateHook] has no say. *)
Lemma SrcIndex_save_disabled (p : SrcIndex.HappyMongooseTimestamps) :
  truthy (opt_disableSaveHook (SrcIndex._options p)) = true ->
  SrcIndex.save p = p.
Proof. intros H. unfold SrcIndex.save. rewrite H. reflexivity. Qed.

Lemma SrcIndex_updateFunc_no_update (clock : nat -> instant) (c u : string)
    (blacklist : list string) (n : nat) :
  run (SrcIndex.updateFunc clock c u blacklist) (mkQuery None) n =
  Thrown "updateOperation is undefined."
         (mkState (mkQuery None) (S n) [EvNow (clock n)]).
Proof. reflexivity. Qed.

Lemma stamps_only_later (c u : string) (now : instant) :
  stamps_only now [EvNow now; EvUpdate [] (stamp_later c u now); EvNext].
Proof.
  intros conditions doc operator clause field v H.
  repeat (destruct H as [H | H]; try discriminate); try contradiction.
  injection H as _ <-. intros Hc Hf.
  repeat (destruct Hc as [Hc | Hc]; try contradiction);
    injection Hc as _ <-;
    repeat (destruct Hf as [Hf | Hf]; try contradiction);
    congruence.
Qed.

Lemma stamps_only_earlier (c u : string) (now : instant) :
  stamps_only now [EvNow now; EvUpdate [] (stamp_earlier c u now); EvNext].
Proof.
  intros conditions doc operator clause field v H.
  repeat (destruct H as [H | H]; try discriminate); try contradiction.
  injection H as _ <-. unfold stamp_earlier. intros Hc Hf.
  repeat (destruct Hc as [Hc | Hc]; try contradiction);
    injection Hc as _ <-; [|destruct (c =? u)];
    repeat (destruct Hf as [Hf | Hf]; try contradiction);
    congruence.
Qed.

Lemma stamps_only_none (now : instant) (l : list event) :
  (forall conditions doc, ~ In (EvUpdate conditions doc) l) -> stamps_only now l.
Proof. intros H conditions doc operator clause field v Hin. destruct (H _ _ Hin). Qed.

(** ** The clock *)

(** C6 as stated fails for a save hook that skips: with [disableSaveHook]
    set and [forceCreateHook] not set it returns without reading the clock. *)
Lemma saveFunc_skip_reads_no_clock :
  ~ (count_now
       (log (final (run (Part001.saveFunc (fun _ => 1000%Z) "createdAt" "updatedAt"
                           true false)
                        [("isNew", VBool true)] 0))) = 1).
Proof. cbn. discriminate. Qed.

(** C6, as amended: within one hook invocation the current instant is read
    at most once: exactly once by the update hook and by a save hook that
    goes on to stamp, and not at all by a save hook that skips.  Every
    timestamp the invocation writes is that one instant, so the created-field
    and the modified-field are equal whenever one invocation sets both, on
    the save path and in the clauses injected on the update path. *)
Theorem now_read_at_most_once (clock : nat -> instant) (c u : string) (n : nat) :
  (forall (d f : bool) (doc : Doc),
      count_now (log (final (run (Part001.saveFunc clock c u d f) doc n)))
      = (if d && (negb f || negb (truthy (prop doc "isNew"))) then 0 else 1)
      /\ forall field v,
           In (EvSet field v)
              (log (final (run (Part001.saveFunc clock c u d f) doc n))) ->
           v = VDate (clock n))
  /\
  (forall (blacklist : list string) (q : Query),
      count_now (log (final (run (Part001.updateFunc clock c u blacklist) q n))) = 1
      /\ stamps_only (clock n)
           (log (final (run (Part001.updateFunc clock c u blacklist) q n))))
  /\
  (forall doc : Doc,
      count_now (log (final (run (SrcIndex.saveFunc clock c u) doc n))) = 1
      /\ forall field v,
           In (EvSet field v) (log (final (run (SrcIndex.saveFunc clock c u) doc n))) ->
           v = VDate (clock n))
  /\
  (forall (blacklist : list string) (q : Query),
      count_now (log (final (run (SrcIndex.updateFunc clock c u blacklist) q n))) = 1
      /\ stamps_only (clock n)
           (log (final (run (SrcIndex.updateFunc clock c u blacklist) q n)))).
Proof.
  assert (Hskip : forall l : list event,
             In l [[EvNow (clock n); EvNext]; [EvNow (clock n)]] ->
             stamps_only (clock n) l).
  { intros l [<- | [<- | []]]; apply stamps_only_none; intros conditions doc H;
      repeat (destruct H as [H | H]; try discriminate); contradiction. }
  repeat split.
  - rewrite Part001_saveFunc_run.
    destruct (d && _); [|destruct (truthy (prop doc "isNew"))]; reflexivity.
  - rewrite Part001_saveFunc_run. intros field v H.
    destruct (d && _); [|destruct (truthy (prop doc "isNew"))]; cbn in H;
      repeat (destruct H as [H | H]; try discriminate; try congruence);
      contradiction.
  - destruct q as [[op|]].
    + rewrite Part001_updateFunc_run. destruct (_ || _); reflexivity.
    + rewrite Part001_updateFunc_no_update. reflexivity.
  - destruct q as [[op|]].
    + rewrite Part001_updateFunc_run. destruct (_ || _); cbn.
      * apply Hskip. left. reflexivity.
      * apply stamps_only_later.
    + rewrite Part001_updateFunc_no_update. apply Hskip. right. left. reflexivity.
  - rewrite SrcIndex_saveFunc_run.
    destruct (truthy (prop doc "isNew")); reflexivity.
  - rewrite SrcIndex_saveFunc_run. intros field v H.
    destruct (truthy (prop doc "isNew")); cbn in H;
      repeat (destruct H as [H | H]; try discriminate; try congruence);
      contradiction.
  - destruct q as [[op|]].
    + rewrite SrcIndex_updateFunc_run. destruct (_ || _); reflexivity.
    + rewrite SrcIndex_updateFunc_no_update. reflexivity.
  - destruct q as [[op|]].
    + rewrite SrcIndex_updateFunc_run. destruct (_ || _); cbn.
      * apply Hskip. left. reflexivity.
      * apply stamps_only_earlier.
    + rewrite SrcIndex_updateFunc_no_update. apply Hskip. right. left. reflexivity.
Qed.

(** ** Attaching the plugin *)

(** C8: without a schema the constructor throws at once, so the default
    export throws too: no instance is built and no hook is registered, in
    either revision. *)
Theorem constructor_requires_schema (options : option Options) :
  Part001.constructor None options = Error "Schema is required."
  /\ Part001.default_export None options = Error "Schema is required."
  /\ SrcIndex.constructor None options = Error "Schema is required."
  /\ SrcIndex.default_export None options = Error "Schema is required.".
Proof. repeat split. Qed.

(** ** Further properties of the path helpers *)

Lemma append_assoc (a b c : string) : (a ++ b) ++ c = a ++ b ++ c.
Proof. induction a as [|x a IH]; simpl; [reflexivity | rewrite IH; reflexivity]. Qed.

Lemma prefix_app_same (a b c : string) : prefix (a ++ b) (a ++ c) = prefix b c.
Proof.
  induction a as [|x a IH]; simpl append; [reflexivity|].
  rewrite prefix_cons, Ascii.eqb_refl. exact IH.
Qed.

Lemma prefix_app_r (a b c : string) :
  prefix a b = true -> prefix a (b ++ c) = true.
Proof.
  revert b. induction a as [|x a IH]; intros b H; [apply prefix_nil|].
  destruct b as [|y b]; [discriminate|].
  simpl append. rewrite prefix_cons in *.
  destruct (Ascii.eqb x y); [apply IH; exact H | discriminate].
Qed.

Lemma prefix_app_self (a b : string) : prefix a (a ++ b) = true.
Proof.
  induction a as [|x a IH]; [apply prefix_nil|].
  simpl append. rewrite prefix_cons, Ascii.eqb_refl. exact IH.
Qed.

Lemma length_zero_empty (s : string) : String.length s = 0 -> s = "".
Proof. destruct s; [reflexivity | discriminate]. Qed.

Lemma covers_descendant (E P s : string) :
  covers E P -> covers E (P ++ "." ++ s).
Proof.
  intros [-> | H]; right.
  - rewrite <- append_assoc. apply prefix_app_self.
  - apply prefix_app_r. exact H.
Qed.

Lemma length_split_dot_cons (c : ascii) (r : string) :
  List.length (split_dot (String c r)) =
  (if Ascii.eqb c "." then 1 else 0) + List.length (split_dot r).
Proof.
  simpl split_dot. destruct (Ascii.eqb c "."); [reflexivity|].
  destruct (split_dot r) eqn:E; [|reflexivity].
  destruct (split_dot_nonempty r E).
Qed.

Lemma length_split_dot_newField (P : string) :
  has_dot P = true ->
  List.length (split_dot (newField P)) = pred (List.length (split_dot P)).
Proof.
  induction P as [|c r IH]; [discriminate|]. intros H.
  rewrite newField_cons, (length_split_dot_cons c r).
  destruct (has_dot r) eqn:Hr.
  - rewrite length_split_dot_cons, (IH eq_refl).
    destruct (split_dot_several r Hr) as (a & b & rest & E). rewrite E.
    destruct (Ascii.eqb c "."); reflexivity.
  - simpl in H. rewrite Hr, orb_false_r in H. rewrite H.
    rewrite (split_dot_single r Hr). reflexivity.
Qed.

Lemma iter_newField_empty (n : nat) : Nat.iter n newField "" = "".
Proof. induction n as [|n IH]; simpl; [reflexivity | rewrite IH; reflexivity]. Qed.

Lemma iter_newField_bound (n : nat) (P : string) :
  List.length (split_dot P) <= n -> Nat.iter n newField P = "".
Proof.
  revert P. induction n as [|n IH]; intros P H.
  - destruct (split_dot P) eqn:E; [destruct (split_dot_nonempty P E)|].
    simpl in H. lia.
  - rewrite Nat.iter_succ_r. destruct (has_dot P) eqn:HP.
    + apply IH. rewrite length_split_dot_newField by exact HP. lia.
    + rewrite (newField_nodot P HP). apply iter_newField_empty.
Qed.

Lemma last_split_dot_cons (c : ascii) (r : string) :
  last (split_dot (String c r)) "" =
  if has_dot r then last (split_dot r) ""
  else if Ascii.eqb c "." then r else String c r.
Proof.
  simpl split_dot. destruct (has_dot r) eqn:Hr.
  - destruct (split_dot_several r Hr) as (a & b & rest & E). rewrite E.
    destruct (Ascii.eqb c "."); reflexivity.
  - rewrite (split_dot_single r Hr). destruct (Ascii.eqb c "."); reflexivity.
Qed.

(** X1: splitting a path on dots and joining the segments with dots gives
    the path back, no segment holds a dot, and there is one segment more
    than there are dots to walk up through. *)
Theorem split_dot_join_dot (s : string) :
  join_dot (split_dot s) = s
  /\ Forall (fun seg => has_dot seg = false) (split_dot s)
  /\ (has_dot s = false <-> split_dot s = [s]).
Proof.
  split; [|split].
  - unfold join_dot. induction s as [|c r IH]; [reflexivity|].
    simpl split_dot. destruct (Ascii.eqb c ".") eqn:Ec.
    + apply Ascii.eqb_eq in Ec. subst c.
      destruct (split_dot r) as [|a rest] eqn:E;
        [destruct (split_dot_nonempty r E)|].
      change (String.concat "." ("" :: a :: rest))
        with (String "." (String.concat "." (a :: rest))).
      rewrite IH. reflexivity.
    + destruct (split_dot r) as [|a rest] eqn:E;
        [destruct (split_dot_nonempty r E)|].
      destruct rest as [|b rest].
      * simpl in *. rewrite IH. reflexivity.
      * change (String.concat "." (String c a :: b :: rest))
          with (String c (String.concat "." (a :: b :: rest))).
        rewrite IH. reflexivity.
  - induction s as [|c r IH]; [repeat constructor|].
    simpl split_dot. destruct (Ascii.eqb c ".") eqn:Ec.
    + constructor; [reflexivity | exact IH].
    + destruct (split_dot r) as [|a rest]; [repeat constructor; simpl; rewrite Ec; reflexivity|].
      inversion IH as [|x l Ha Hrest]; subst.
      constructor; [simpl; rewrite Ec, Ha; reflexivity | exact Hrest].
  - split; [apply split_dot_single|].
    intros H. destruct (has_dot s) eqn:Hs; [|reflexivity].
    destruct (split_dot_several s Hs) as (a & b & rest & E).
    rewrite E in H. discriminate.
Qed.

(** X2: the step up the path drops exactly the last segment and the dot
    before it; a path without a dot steps up to the empty path. *)
Theorem newField_drops_last_segment (P : string) :
  has_dot (last (split_dot P) "") = false
  /\ (has_dot P = true -> P = newField P ++ "." ++ last (split_dot P) "")
  /\ (has_dot P = false -> newField P = "" /\ last (split_dot P) "" = P).
Proof.
  split; [|split].
  - induction P as [|c r IH]; [reflexivity|].
    rewrite last_split_dot_cons. destruct (has_dot r) eqn:Hr; [exact IH|].
    destruct (Ascii.eqb c ".") eqn:Ec; [exact Hr|].
    simpl. rewrite Ec, Hr. reflexivity.
  - induction P as [|c r IH]; [discriminate|]. intros H.
    rewrite newField_cons, last_split_dot_cons.
    destruct (has_dot r) eqn:Hr.
    + cbn [append]. f_equal. apply IH. reflexivity.
    + simpl in H. rewrite Hr, orb_false_r in H. rewrite H.
      apply Ascii.eqb_eq in H. subst c. reflexivity.
  - intros H. split; [apply newField_nodot; exact H|].
    rewrite (split_dot_single P H). reflexivity.
Qed.

(** X3: the walk up a path ends: stepping up once per segment reaches the
    empty path, on which the matcher answers false. *)
Theorem newField_reaches_empty (blacklist : list string) (P : string) :
  Nat.iter (List.length (split_dot P)) newField P = ""
  /\ fieldIsBlacklisted blacklist
       (Nat.iter (List.length (split_dot P)) newField P) = false.
Proof.
  assert (E : Nat.iter (List.length (split_dot P)) newField P = "").
  { apply iter_newField_bound. apply le_n. }
  split; [exact E|]. rewrite E. apply fieldIsBlacklisted_empty.
Qed.

(** X4: a larger blacklist covers at least as much: every path matched
    under a blacklist is matched under any blacklist that contains its
    entries, whatever their order or repetition. *)
Theorem fieldIsBlacklisted_monotone (B1 B2 : list string) (P : string) :
  incl B1 B2 ->
  fieldIsBlacklisted B1 P = true -> fieldIsBlacklisted B2 P = true.
Proof.
  intros Hincl H. apply fieldIsBlacklisted_covers in H.
  destruct H as (E & HIn & HE & Hc).
  apply fieldIsBlacklisted_covers. exists E. auto.
Qed.

Lemma fieldIsBlacklisted_monotone_witness :
  fieldIsBlacklisted ["nested.field"; "foo"] "foo.bar" = true.
Proof.
  apply (fieldIsBlacklisted_monotone ["foo"] ["nested.field"; "foo"] "foo.bar").
  - intros x [<- | []]. right. left. reflexivity.
  - reflexivity.
Defined.

(** X5: coverage is inherited downwards: when a path is matched, every
    path below it is matched as well. *)
Theorem fieldIsBlacklisted_descendant (B : list string) (P s : string) :
  fieldIsBlacklisted B P = true ->
  fieldIsBlacklisted B (P ++ "." ++ s) = true.
Proof.
  intros H. apply fieldIsBlacklisted_covers in H.
  destruct H as (E & HIn & HE & Hc).
  apply fieldIsBlacklisted_covers. exists E.
  split; [exact HIn|]. split; [exact HE|]. apply covers_descendant. exact Hc.
Qed.

Lemma fieldIsBlacklisted_descendant_witness :
  fieldIsBlacklisted ["foo"] ("foo.nested" ++ "." ++ "value") = true.
Proof.
  apply (fieldIsBlacklisted_descendant ["foo"] "foo.nested" "value").
  reflexivity.
Defined.

(** X6: an entry covers whole segments only: a path that merely continues
    the entry's text without a dot (entry foo, path foobar) is not matched
    by it. *)
Theorem fieldIsBlacklisted_not_text_prefix (E s : string) :
  s <> "" -> prefix "." s = false ->
  fieldIsBlacklisted [E] (E ++ s) = false.
Proof.
  intros Hs Hd. apply not_true_is_false. intros H.
  apply fieldIsBlacklisted_covers in H.
  destruct H as (E' & [<- | []] & _ & [Hc | Hc]).
  - apply Hs. apply length_zero_empty.
    apply (f_equal String.length) in Hc. rewrite append_length in Hc. lia.
  - rewrite prefix_app_same in Hc. congruence.
Qed.

Lemma fieldIsBlacklisted_not_text_prefix_witness :
  fieldIsBlacklisted ["foo"] ("foo" ++ "bar.baz") = false.
Proof.
  apply (fieldIsBlacklisted_not_text_prefix "foo" "bar.baz").
  - discriminate.
  - reflexivity.
Defined.

(** X7: an empty string in the blacklist has no effect on the verdict for
    any path. *)
Theorem fieldIsBlacklisted_empty_entry_inert (B : list string) (P : string) :
  fieldIsBlacklisted ("" :: B) P = fieldIsBlacklisted B P.
Proof.
  apply eq_true_iff_eq. rewrite !fieldIsBlacklisted_covers.
  split; intros (E & HIn & HE & Hc); exists E; (split; [|auto]).
  - destruct HIn as [<- | HIn]; [congruence | exact HIn].
  - right. exact HIn.
Qed.

Lemma blacklistedFieldExists_existsb_default
    (blacklist : option (list string)) (fields : option Fields) :
  blacklistedFieldExists blacklist fields =
  existsb (fun field => fieldIsBlacklisted (with_default [] blacklist) field)
          (Object_keys (with_default [] fields)).
Proof.
  destruct blacklist as [bl|], fields as [f|]; simpl with_default.
  - apply blacklistedFieldExists_existsb.
  - unfold blacklistedFieldExists, blacklistedFieldExists_traced. simpl.
    rewrite orb_true_r. reflexivity.
  - symmetry. apply existsb_nil_blacklist.
  - reflexivity.
Qed.

Lemma some_trace {A} (f : A -> bool) (arr seen : list A) (b : bool) :
  some f arr = (b, seen) ->
  if b then
    exists (before : list A) (hit : A) (rest : list A),
      arr = (before ++ hit :: rest)%list /\ seen = (before ++ [hit])%list
      /\ f hit = true /\ forall x, In x before -> f x = false
  else seen = arr /\ forall x, In x arr -> f x = false.
Proof.
  revert seen b. induction arr as [|x r IH]; intros seen b; simpl.
  - intros H. injection H as <- <-. split; [reflexivity | contradiction].
  - destruct (f x) eqn:Ex.
    + intros H. injection H as <- <-. exists [], x, r.
      repeat split; auto. contradiction.
    + destruct (some f r) as [b' seen'] eqn:Er. intros H. injection H as <- <-.
      specialize (IH seen' b' eq_refl). destruct b'.
      * destruct IH as (before & hit & rest & -> & -> & Hh & Hb).
        exists (x :: before), hit, rest. repeat split; auto.
        intros y [<- | Hy]; auto.
      * destruct IH as [-> Hall]. split; [reflexivity|].
        intros y [<- | Hy]; auto.
Qed.

(** X8: the verdict on a field set is true exactly when one of its keys is
    a non-empty blacklist entry or lies under one; a blacklist or a field
    set that is left out counts as empty. *)
Theorem blacklistedFieldExists_iff
    (blacklist : option (list string)) (fields : option Fields) :
  blacklistedFieldExists blacklist fields = true <->
  exists key E,
    In key (Object_keys (with_default [] fields))
    /\ In E (with_default [] blacklist) /\ E <> ""
    /\ (key = E \/ prefix (E ++ ".") key = true).
Proof.
  rewrite blacklistedFieldExists_existsb_default, existsb_exists. split.
  - intros (key & HIn & Hk). apply fieldIsBlacklisted_covers in Hk.
    destruct Hk as (E & HE & Hne & Hc). exists key, E. auto.
  - intros (key & E & HIn & HE & Hne & Hc). exists key.
    split; [exact HIn|]. apply fieldIsBlacklisted_covers. exists E. auto.
Qed.

(** X9: the keys of a field set are tried in order and the search stops at
    the first key that is matched: the keys after it are never looked at,
    and a false verdict means every key was tried and none matched. *)
Theorem blacklistedFieldExists_stops_at_first_hit
    (blacklist : list string) (fields : Fields) (seen : list string) (b : bool) :
  blacklist <> [] ->
  blacklistedFieldExists_traced (Some blacklist) (Some fields) = (b, seen) ->
  if b then
    exists (before : list string) (hit : string) (rest : list string),
      Object_keys fields = (before ++ hit :: rest)%list
      /\ seen = (before ++ [hit])%list
      /\ fieldIsBlacklisted blacklist hit = true
      /\ forall key, In key before -> fieldIsBlacklisted blacklist key = false
  else
    seen = Object_keys fields
    /\ forall key, In key (Object_keys fields) ->
                   fieldIsBlacklisted blacklist key = false.
Proof.
  intros Hb. unfold blacklistedFieldExists_traced. simpl with_default.
  destruct blacklist as [|e bl]; [congruence|]. simpl orb.
  destruct (Object_keys fields) as [|k ks] eqn:Ek.
  - simpl. intros H. injection H as <- <-. split; [reflexivity | contradiction].
  - cbn [List.length Nat.eqb]. apply some_trace.
Qed.

Lemma blacklistedFieldExists_stops_at_first_hit_witness :
  exists (before : list string) (hit : string) (rest : list string),
    Object_keys [("bar", VNum 1); ("foo.x", VNum 2); ("baz", VNum 3)]
      = (before ++ hit :: rest)%list
    /\ ["bar"; "foo.x"] = (before ++ [hit])%list
    /\ fieldIsBlacklisted ["foo"] hit = true
    /\ forall key, In key before -> fieldIsBlacklisted ["foo"] key = false.
Proof.
  apply (blacklistedFieldExists_stops_at_first_hit ["foo"]
           [("bar", VNum 1); ("foo.x", VNum 2); ("baz", VNum 3)]
           ["bar"; "foo.x"] true).
  - discriminate.
  - reflexivity.
Defined.

(** ** Building the instance and attaching the hooks *)

Lemma or_str_nonempty (a : option string) (d : string) :
  d <> "" -> or_str a d <> "".
Proof.
  intros Hd. destruct a as [x|]; simpl; [|exact Hd].
  destruct (x =? "") eqn:E; [exact Hd|]. apply String.eqb_neq. exact E.
Qed.

Lemma truthy_VStr (x : string) : x <> "" -> truthy (VStr x) = true.
Proof. intros H. simpl. apply String.eqb_neq in H. rewrite H. reflexivity. Qed.

Lemma created_name_nonempty (options : option Options) : created_name options <> "".
Proof. apply or_str_nonempty. discriminate. Qed.

Lemma updated_name_nonempty (options : option Options) : updated_name options <> "".
Proof. apply or_str_nonempty. discriminate. Qed.

(** The instance the constructor of [unnamed/part_001] builds. *)
Lemma Part001_constructor_run (s : Schema Part001.Hook) (options : option Options) :
  Part001.constructor (Some s) options =
  Ok (Part001.mkPlugin
        (mkSchema (schema_props s)
           (schema_added s ++
            when_set (opt_shouldUpdateSchema (options_of options))
              (declare_if_missing (schema_props s) (created_name options) ++
               declare_if_missing (schema_props s) (updated_name options)))
           (schema_pres s))
        (options_of options) (blacklist_of options)
        (created_name options) (updated_name options)).
Proof.
  unfold Part001.constructor. fold (options_of options).
  fold (created_name options) (updated_name options) (blacklist_of options).
  cbn [Part001._options]. unfold when_set.
  pose proof (truthy_VStr _ (created_name_nonempty options)) as Hc.
  pose proof (truthy_VStr _ (updated_name_nonempty options)) as Hu.
  destruct s as [props added pres]. cbn [schema_props schema_added schema_pres].
  destruct (truthy (opt_shouldUpdateSchema (options_of options))).
  - unfold Part001.handleUpdateSchema, declare_if_missing.
    cbn [Part001._schema Part001._createdAt Part001._updatedAt schema_props].
    destruct (truthy (prop props (created_name options)));
      destruct (truthy (prop props (updated_name options)));
      cbn [negb]; unfold Part001.updateSchema;
      cbn [Part001._schema Part001._createdAt Part001._updatedAt];
      rewrite ?Hc, ?Hu; cbn [negb];
      unfold Part001.with_schema, schema_add;
      cbn [Part001._schema Part001._createdAt Part001._updatedAt Part001._options
           Part001._blacklist schema_props schema_added schema_pres];
      rewrite ?Hc, ?Hu; cbn [negb];
      cbn [Part001._schema Part001._createdAt Part001._updatedAt Part001._options
           Part001._blacklist schema_props schema_added schema_pres app];
      rewrite ?app_nil_r, <- ?app_assoc; reflexivity.
  - rewrite app_nil_r. reflexivity.
Qed.

(** The same for [src/index.js]. *)
Lemma SrcIndex_constructor_run (s : Schema SrcIndex.Hook) (options : option Options) :
  SrcIndex.constructor (Some s) options =
  Ok (SrcIndex.mkPlugin
        (mkSchema (schema_props s)
           (schema_added s ++
            when_set (opt_shouldUpdateSchema (options_of options))
              (declare_if_missing (schema_props s) (created_name options) ++
               declare_if_missing (schema_props s) (updated_name options)))
           (schema_pres s))
        (options_of options) (blacklist_of options)
        (created_name options) (updated_name options)).
Proof.
  unfold SrcIndex.constructor. fold (options_of options).
  fold (created_name options) (updated_name options) (blacklist_of options).
  cbn [SrcIndex._options]. unfold when_set.
  pose proof (truthy_VStr _ (created_name_nonempty options)) as Hc.
  pose proof (truthy_VStr _ (updated_name_nonempty options)) as Hu.
  destruct s as [props added pres]. cbn [schema_props schema_added schema_pres].
  destruct (truthy (opt_shouldUpdateSchema (options_of options))).
  - unfold SrcIndex.handleUpdateSchema, declare_if_missing.
    cbn [SrcIndex._schema SrcIndex._createdAt SrcIndex._updatedAt schema_props].
    destruct (truthy (prop props (created_name options)));
      destruct (truthy (prop props (updated_name options)));
      cbn [negb]; unfold SrcIndex.updateSchema;
      cbn [SrcIndex._schema SrcIndex._createdAt SrcIndex._updatedAt];
      rewrite ?Hc, ?Hu; cbn [negb];
      unfold SrcIndex.with_schema, schema_add;
      cbn [SrcIndex._schema SrcIndex._createdAt SrcIndex._updatedAt SrcIndex._options
           SrcIndex._blacklist schema_props schema_added schema_pres];
      rewrite ?Hc, ?Hu; cbn [negb];
      cbn [SrcIndex._schema SrcIndex._createdAt SrcIndex._updatedAt SrcIndex._options
           SrcIndex._blacklist schema_props schema_added schema_pres app];
      rewrite ?app_nil_r, <- ?app_assoc; reflexivity.
  - rewrite app_nil_r. reflexivity.
Qed.

(** X10: given a schema, the constructor never throws, in either revision:
    the field names it resolves are never empty (an empty or missing name
    falls back to the default), so the error of [updateSchema] cannot be
    reached; the blacklist falls back to the empty list. *)
Theorem constructor_with_schema_succeeds
    (s1 : Schema Part001.Hook) (s2 : Schema SrcIndex.Hook)
    (options : option Options) :
  (exists p, Part001.constructor (Some s1) options = Ok p
             /\ Part001._createdAt p = created_name options
             /\ Part001._updatedAt p = updated_name options
             /\ Part001._blacklist p = blacklist_of options)
  /\ (exists p, SrcIndex.constructor (Some s2) options = Ok p
                /\ SrcIndex._createdAt p = created_name options
                /\ SrcIndex._updatedAt p = updated_name options
                /\ SrcIndex._blacklist p = blacklist_of options)
  /\ created_name options <> "" /\ updated_name options <> ""
  /\ (forall name, opt_createdAt (options_of options) = Some name -> name <> "" ->
                   created_name options = name)
  /\ (opt_createdAt (options_of options) = None
      \/ opt_createdAt (options_of options) = Some "" ->
      created_name options = "createdAt")
  /\ (forall name, opt_updatedAt (options_of options) = Some name -> name <> "" ->
                   updated_name options = name)
  /\ (opt_updatedAt (options_of options) = None
      \/ opt_updatedAt (options_of options) = Some "" ->
      updated_name options = "updatedAt").
Proof.
  split; [|split].
  - eexists. rewrite Part001_constructor_run. repeat split.
  - eexists. rewrite SrcIndex_constructor_run. repeat split.
  - split; [apply created_name_nonempty|]. split; [apply updated_name_nonempty|].
    unfold created_name, updated_name. repeat split.
    + intros name -> Hn. simpl. apply String.eqb_neq in Hn. rewrite Hn. reflexivity.
    + intros [-> | ->]; reflexivity.
    + intros name -> Hn. simpl. apply String.eqb_neq in Hn. rewrite Hn. reflexivity.
    + intros [-> | ->]; reflexivity.
Qed.

(** X11: the constructor touches the schema only when [shouldUpdateSchema]
    is truthy, and then only by declaring, as dates and in this order, the
    created-field and the modified-field that the schema does not show; the
    two checks are made before either declaration, so one missing name used
    for both fields is declared twice.  Registered callbacks and the
    schema's own properties stay as they were. *)
Theorem constructor_declares_missing_fields
    (s1 : Schema Part001.Hook) (s2 : Schema SrcIndex.Hook)
    (options : option Options) :
  (forall p, Part001.constructor (Some s1) options = Ok p ->
     schema_added (Part001._schema p) =
       (schema_added s1 ++
        when_set (opt_shouldUpdateSchema (options_of options))
          (declare_if_missing (schema_props s1) (created_name options) ++
           declare_if_missing (schema_props s1) (updated_name options)))%list
     /\ schema_props (Part001._schema p) = schema_props s1
     /\ schema_pres (Part001._schema p) = schema_pres s1)
  /\
  (forall p, SrcIndex.constructor (Some s2) options = Ok p ->
     schema_added (SrcIndex._schema p) =
       (schema_added s2 ++
        when_set (opt_shouldUpdateSchema (options_of options))
          (declare_if_missing (schema_props s2) (created_name options) ++
           declare_if_missing (schema_props s2) (updated_name options)))%list
     /\ schema_props (SrcIndex._schema p) = schema_props s2
     /\ schema_pres (SrcIndex._schema p) = schema_pres s2).
Proof.
  split; intros p H.
  - rewrite Part001_constructor_run in H. injection H as <-. repeat split.
  - rewrite SrcIndex_constructor_run in H. injection H as <-. repeat split.
Qed.

Lemma constructor_declares_missing_fields_witness :
  schema_added
    (Part001._schema
       (Part001.mkPlugin
          (mkSchema [] [("x", "Date"); ("x", "Date")] [])
          (mkOptions (Some "x") (Some "x") None (VBool true) VUndefined VUndefined
                     VUndefined VUndefined VUndefined)
          [] "x" "x"))
  = [("x", "Date"); ("x", "Date")].
Proof.
  apply (proj1 (constructor_declares_missing_fields (mkSchema [] [] []) (mkSchema [] [] [])
                  (Some (mkOptions (Some "x") (Some "x") None (VBool true) VUndefined
                                   VUndefined VUndefined VUndefined VUndefined)))
               (Part001.mkPlugin
                  (mkSchema [] [("x", "Date"); ("x", "Date")] [])
                  (mkOptions (Some "x") (Some "x") None (VBool true) VUndefined VUndefined
                             VUndefined VUndefined VUndefined)
                  [] "x" "x")).
  reflexivity.
Defined.

(** X12: with a schema the default export of [unnamed/part_001] never
    throws and appends to the schema's callbacks, in this order, the save
    hook (always, also when [disableSaveHook] is set: the switch is only
    captured by the hook) and then one and the same update hook under
    [update], [updateOne] and [findOneAndUpdate], each unless its switch is
    truthy; callbacks registered before stay in place. *)
Theorem Part001_default_export_registers
    (s : Schema Part001.Hook) (options : option Options) :
  exists s',
    Part001.default_export (Some s) options = Ok s'
    /\ schema_props s' = schema_props s
    /\ schema_pres s' =
       (schema_pres s ++
        [("save", Part001.SaveFunc (created_name options) (updated_name options)
                    (truthy (opt_disableSaveHook (options_of options)))
                    (truthy (opt_forceCreateHook (options_of options))))] ++
        unless (opt_disableUpdateHook (options_of options))
          [("update", Part001.UpdateFunc (created_name options) (updated_name options)
                        (blacklist_of options))] ++
        unless (opt_disableUpdateOneHook (options_of options))
          [("updateOne", Part001.UpdateFunc (created_name options) (updated_name options)
                           (blacklist_of options))] ++
        unless (opt_disableFindOneAndUpdate (options_of options))
          [("findOneAndUpdate",
            Part001.UpdateFunc (created_name options) (updated_name options)
              (blacklist_of options))])%list.
Proof.
  unfold Part001.default_export. rewrite Part001_constructor_run.
  eexists. split; [reflexivity|].
  unfold Part001.findOneAndUpdate, Part001.updateOne, Part001.update, Part001.save,
    Part001.getUpdateHook, Part001.getSaveHook, Part001.with_schema, schema_pre, unless.
  cbn [Part001._schema Part001._options Part001._createdAt Part001._updatedAt
       Part001._blacklist schema_props schema_added schema_pres].
  destruct (truthy (opt_disableUpdateHook (options_of options)));
    cbn [Part001._schema Part001._options Part001._createdAt Part001._updatedAt
         Part001._blacklist schema_props schema_added schema_pres];
    destruct (truthy (opt_disableUpdateOneHook (options_of options)));
    cbn [Part001._schema Part001._options Part001._createdAt Part001._updatedAt
         Part001._blacklist schema_props schema_added schema_pres];
    destruct (truthy (opt_disableFindOneAndUpdate (options_of options)));
    cbn [Part001._schema Part001._options Part001._createdAt Part001._updatedAt
         Part001._blacklist schema_props schema_added schema_pres app];
    (split; [reflexivity|]); rewrite <- ?app_assoc; reflexivity.
Qed.

(** X13: with a schema the default export of [src/index.js] never throws
    and appends the save hook under [save] and one and the same update hook
    under [update] and [updateOne], each unless its switch is truthy; here a
    set [disableSaveHook] leaves the save hook out altogether, and nothing
    is ever registered under [findOneAndUpdate]. *)
Theorem SrcIndex_default_export_registers
    (s : Schema SrcIndex.Hook) (options : option Options) :
  exists s',
    SrcIndex.default_export (Some s) options = Ok s'
    /\ schema_props s' = schema_props s
    /\ schema_pres s' =
       (schema_pres s ++
        unless (opt_disableSaveHook (options_of options))
          [("save", SrcIndex.SaveFunc (created_name options) (updated_name options))] ++
        unless (opt_disableUpdateHook (options_of options))
          [("update", SrcIndex.UpdateFunc (created_name options) (updated_name options)
                        (blacklist_of options))] ++
        unless (opt_disableUpdateOneHook (options_of options))
          [("updateOne", SrcIndex.UpdateFunc (created_name options) (updated_name options)
                           (blacklist_of options))])%list.
Proof.
  unfold SrcIndex.default_export. rewrite SrcIndex_constructor_run.
  eexists. split; [reflexivity|].
  unfold SrcIndex.updateOne, SrcIndex.update, SrcIndex.save,
    SrcIndex.getUpdateHook, SrcIndex.getSaveHook, SrcIndex.with_schema, schema_pre, unless.
  cbn [SrcIndex._schema SrcIndex._options SrcIndex._createdAt SrcIndex._updatedAt
       SrcIndex._blacklist schema_props schema_added schema_pres].
  destruct (truthy (opt_disableSaveHook (options_of options)));
    cbn [SrcIndex._schema SrcIndex._options SrcIndex._createdAt SrcIndex._updatedAt
         SrcIndex._blacklist schema_props schema_added schema_pres];
    destruct (truthy (opt_disableUpdateHook (options_of options)));
    cbn [SrcIndex._schema SrcIndex._options SrcIndex._createdAt SrcIndex._updatedAt
         SrcIndex._blacklist schema_props schema_added schema_pres];
    destruct (truthy (opt_disableUpdateOneHook (options_of options)));
    cbn [SrcIndex._schema SrcIndex._options SrcIndex._createdAt SrcIndex._updatedAt
         SrcIndex._blacklist schema_props schema_added schema_pres app];
    (split; [reflexivity|]); rewrite <- ?app_assoc, ?app_nil_r; reflexivity.
Qed.

Lemma Part001Draft_validateField_ok (s : Part001Draft.DraftSchema) (field : string) :
  declared_date s field ->
  Part001Draft.validateField (obj_get (Part001Draft.paths s) field) field = Ok tt.
Proof.
  intros (t & Hg & Hi). unfold Part001Draft.validateField. rewrite Hg. simpl.
  rewrite Hi. reflexivity.
Qed.

Lemma Part001Draft_validateField_error (s : Part001Draft.DraftSchema) (field : string) :
  ~ declared_date s field ->
  Part001Draft.validateField (obj_get (Part001Draft.paths s) field) field =
  Error (field ++ " must be of type 'Date'.").
Proof.
  intros H. unfold Part001Draft.validateField.
  destruct (obj_get (Part001Draft.paths s) field) as [t|] eqn:Hg; [|reflexivity].
  simpl. destruct (Part001Draft.instance t) as [i|] eqn:Hi; [|reflexivity].
  simpl. destruct (i =? "Date") eqn:E; [|reflexivity].
  apply String.eqb_eq in E. subst i. exfalso. apply H. exists t. auto.
Qed.

(** X14: the first draft attaches only to a schema that declares both
    fields as dates: otherwise its default export throws, naming the
    created-field first and the modified-field if only that one is wrong,
    and registers nothing; when both are dates it registers its update
    method under [update] and [updateOne] and its insert method under
    [create] and [save], in this order, after the callbacks already there. *)
Theorem Part001Draft_default_export_checks_dates
    (s : Part001Draft.DraftSchema) (options : option Options) :
  (declared_date s (or_str (opt_createdAt (options_of options)) "createdAt") ->
   declared_date s (or_str (opt_updatedAt (options_of options)) "updatedAt") ->
   Part001Draft.default_export s options =
   Ok (Part001Draft.mkDraftSchema (Part001Draft.paths s)
         (Part001Draft.pres s ++
          [("update", Part001Draft.HandleUpdate);
           ("updateOne", Part001Draft.HandleUpdate);
           ("create", Part001Draft.HandleInsert);
           ("save", Part001Draft.HandleInsert)])))
  /\
  (~ declared_date s (or_str (opt_createdAt (options_of options)) "createdAt") ->
   Part001Draft.default_export s options =
   Error (or_str (opt_createdAt (options_of options)) "createdAt"
          ++ " must be of type 'Date'."))
  /\
  (declared_date s (or_str (opt_createdAt (options_of options)) "createdAt") ->
   ~ declared_date s (or_str (opt_updatedAt (options_of options)) "updatedAt") ->
   Part001Draft.default_export s options =
   Error (or_str (opt_updatedAt (options_of options)) "updatedAt"
          ++ " must be of type 'Date'.")).
Proof.
  unfold Part001Draft.default_export, Part001Draft.constructor.
  fold (options_of options). cbn [Part001Draft._schema Part001Draft._createdAt
                                   Part001Draft._updatedAt].
  split; [|split].
  - intros Hc Hu.
    rewrite (Part001Draft_validateField_ok s _ Hc),
      (Part001Draft_validateField_ok s _ Hu).
    cbn. rewrite <- !app_assoc. reflexivity.
  - intros Hc. rewrite (Part001Draft_validateField_error s _ Hc). reflexivity.
  - intros Hc Hu.
    rewrite (Part001Draft_validateField_ok s _ Hc),
      (Part001Draft_validateField_error s _ Hu).
    reflexivity.
Qed.

Lemma Part001Draft_default_export_checks_dates_witness :
  Part001Draft.default_export
    (Part001Draft.mkDraftSchema
       [("createdAt", Part001Draft.mkSchemaType (Some "Date"));
        ("updatedAt", Part001Draft.mkSchemaType (Some "String"))] [])
    None
  = Error "updatedAt must be of type 'Date'.".
Proof.
  apply (proj2 (proj2 (Part001Draft_default_export_checks_dates
           (Part001Draft.mkDraftSchema
              [("createdAt", Part001Draft.mkSchemaType (Some "Date"));
               ("updatedAt", Part001Draft.mkSchemaType (Some "String"))] [])
           None))).
  - eexists. split; reflexivity.
  - intros (t & Hg & Hi). injection Hg as <-. discriminate.
Defined.

(** ** Further properties of the hooks *)

Lemma obj_get_set_same {A} (o : object A) (k : string) (v : A) :
  obj_get (obj_set o k v) k = Some v.
Proof.
  induction o as [|[k' v'] r IH]; simpl.
  - rewrite String.eqb_refl. reflexivity.
  - destruct (k' =? k) eqn:E; simpl; rewrite E; [reflexivity | exact IH].
Qed.

Lemma obj_get_set_other {A} (o : object A) (k k' : string) (v : A) :
  k' <> k -> obj_get (obj_set o k v) k' = obj_get o k'.
Proof.
  intros H. induction o as [|[k0 v0] r IH]; simpl.
  - apply String.eqb_neq in H. rewrite String.eqb_sym, H. reflexivity.
  - destruct (k0 =? k) eqn:E; simpl.
    + apply String.eqb_eq in E. subst k0.
      apply not_eq_sym in H. apply String.eqb_neq in H. rewrite H. reflexivity.
    + destruct (k0 =? k'); [reflexivity | exact IH].
Qed.

Lemma prop_set_same (doc : Doc) (k : string) (v : value) :
  prop (obj_set doc k v) k = v.
Proof. unfold prop. rewrite obj_get_set_same. reflexivity. Qed.

Lemma prop_set_other (doc : Doc) (k k' : string) (v : value) :
  k' <> k -> prop (obj_set doc k v) k' = prop doc k'.
Proof. intros H. unfold prop. rewrite obj_get_set_other by exact H. reflexivity. Qed.

(** X15: on a document that is not new the save hook never writes the
    created-field: it sets the modified-field to the instant it reads, or,
    in [unnamed/part_001] with [disableSaveHook] set, writes nothing at all,
    whatever [forceCreateHook] says. *)
Theorem saveFunc_existing_document (clock : nat -> instant) (c u : string)
    (d f : bool) (doc : Doc) (n : nat) :
  truthy (prop doc "isNew") = false ->
  run (Part001.saveFunc clock c u d f) doc n =
    (if d then Returned tt (mkState doc n [EvNext])
     else Returned tt (mkState (obj_set doc u (VDate (clock n))) (S n)
                         [EvNow (clock n); EvSet u (VDate (clock n)); EvNext]))
  /\ run (SrcIndex.saveFunc clock c u) doc n =
       Returned tt (mkState (obj_set doc u (VDate (clock n))) (S n)
                      [EvNow (clock n); EvSet u (VDate (clock n)); EvNext])
  /\ (c <> u ->
      prop (this (final (run (Part001.saveFunc clock c u d f) doc n))) c = prop doc c
      /\ prop (this (final (run (SrcIndex.saveFunc clock c u) doc n))) c = prop doc c).
Proof.
  intros Hn. rewrite Part001_saveFunc_run, SrcIndex_saveFunc_run, Hn.
  rewrite orb_true_r, andb_true_r.
  split; [reflexivity|]. split; [reflexivity|].
  intros Hcu. destruct d; cbn; rewrite ?prop_set_other by exact Hcu; auto.
Qed.

Lemma saveFunc_existing_document_witness :
  run (Part001.saveFunc (fun _ => 1000%Z) "createdAt" "updatedAt" true true)
      [("isNew", VBool false); ("createdAt", VDate 5%Z)] 0 =
    Returned tt (mkState [("isNew", VBool false); ("createdAt", VDate 5%Z)] 0 [EvNext]).
Proof.
  apply (saveFunc_existing_document (fun _ => 1000%Z) "createdAt" "updatedAt"
           true true [("isNew", VBool false); ("createdAt", VDate 5%Z)] 0).
  reflexivity.
Defined.

(** X16: after a save hook has stamped a new document, both fields read
    back as the instant that was read and every other property of the
    document reads as before. *)
Theorem saveFunc_new_document_reads_back (clock : nat -> instant) (c u : string)
    (d f : bool) (doc : Doc) (n : nat) :
  truthy (prop doc "isNew") = true ->
  d && negb f = false ->
  (prop (this (final (run (Part001.saveFunc clock c u d f) doc n))) c = VDate (clock n)
   /\ prop (this (final (run (Part001.saveFunc clock c u d f) doc n))) u = VDate (clock n)
   /\ forall k, k <> c -> k <> u ->
        obj_get (this (final (run (Part001.saveFunc clock c u d f) doc n))) k
        = obj_get doc k)
  /\
  (prop (this (final (run (SrcIndex.saveFunc clock c u) doc n))) c = VDate (clock n)
   /\ prop (this (final (run (SrcIndex.saveFunc clock c u) doc n))) u = VDate (clock n)
   /\ forall k, k <> c -> k <> u ->
        obj_get (this (final (run (SrcIndex.saveFunc clock c u) doc n))) k
        = obj_get doc k).
Proof.
  intros Hn Hd. rewrite Part001_saveFunc_run, SrcIndex_saveFunc_run, Hn.
  cbn [negb]. rewrite orb_false_r, Hd. cbn [final this].
  assert (Hc : prop (obj_set (obj_set doc c (VDate (clock n))) u (VDate (clock n))) c
               = VDate (clock n)).
  { destruct (String.eqb_spec c u) as [-> | Hcu].
    - apply prop_set_same.
    - rewrite prop_set_other by exact Hcu. apply prop_set_same. }
  assert (Hk : forall k, k <> c -> k <> u ->
             obj_get (obj_set (obj_set doc c (VDate (clock n))) u (VDate (clock n))) k
             = obj_get doc k).
  { intros k Hkc Hku. rewrite !obj_get_set_other by assumption. reflexivity. }
  repeat split; auto using prop_set_same.
Qed.

Lemma saveFunc_new_document_reads_back_witness :
  prop (this (final (run (Part001.saveFunc (fun _ => 1000%Z) "createdAt" "updatedAt"
                            true true)
                         [("isNew", VBool true); ("name", VStr "x")] 0))) "createdAt"
  = VDate 1000%Z.
Proof.
  apply (saveFunc_new_document_reads_back (fun _ => 1000%Z) "createdAt" "updatedAt"
           true true [("isNew", VBool true); ("name", VStr "x")] 0);
    reflexivity.
Defined.

(** X17: a save hook never throws and calls the continuation exactly once,
    as its last step, whether it stamps or skips, in both revisions. *)
Theorem saveFunc_calls_next_once (clock : nat -> instant) (c u : string)
    (d f : bool) (doc : Doc) (n : nat) :
  (returned (run (Part001.saveFunc clock c u d f) doc n) = true
   /\ exists before,
        log (final (run (Part001.saveFunc clock c u d f) doc n))
        = (before ++ [EvNext])%list
        /\ count_next before = 0)
  /\
  (returned (run (SrcIndex.saveFunc clock c u) doc n) = true
   /\ exists before,
        log (final (run (SrcIndex.saveFunc clock c u) doc n))
        = (before ++ [EvNext])%list
        /\ count_next before = 0).
Proof.
  rewrite Part001_saveFunc_run, SrcIndex_saveFunc_run. split.
  - destruct (d && _); [|destruct (truthy (prop doc "isNew"))];
      (split; [reflexivity|]); cbn [final log].
    + exists []. split; reflexivity.
    + exists [EvNow (clock n); EvSet c (VDate (clock n)); EvSet u (VDate (clock n))].
      split; reflexivity.
    + exists [EvNow (clock n); EvSet u (VDate (clock n))]. split; reflexivity.
  - destruct (truthy (prop doc "isNew")); (split; [reflexivity|]); cbn [final log].
    + exists [EvNow (clock n); EvSet c (VDate (clock n)); EvSet u (VDate (clock n))].
      split; reflexivity.
    + exists [EvNow (clock n); EvSet u (VDate (clock n))]. split; reflexivity.
Qed.

(** X18: the update hook throws exactly when the query carries no update;
    it then throws the extraction's message, having read the clock once, and
    neither calls the continuation nor hands anything to the host.  Otherwise
    it returns and has called the continuation exactly once.  Both
    revisions. *)
Theorem updateFunc_throws_iff_no_update (clock : nat -> instant) (c u : string)
    (blacklist : list string) (q : Query) (n : nat) :
  (returned (run (Part001.updateFunc clock c u blacklist) q n) = false
   <-> _update q = None)
  /\ count_next (log (final (run (Part001.updateFunc clock c u blacklist) q n)))
     = (if returned (run (Part001.updateFunc clock c u blacklist) q n) then 1 else 0)
  /\ (returned (run (SrcIndex.updateFunc clock c u blacklist) q n) = false
      <-> _update q = None)
  /\ count_next (log (final (run (SrcIndex.updateFunc clock c u blacklist) q n)))
     = (if returned (run (SrcIndex.updateFunc clock c u blacklist) q n) then 1 else 0)
  /\ (_update q = None ->
      thrown_message (run (Part001.updateFunc clock c u blacklist) q n)
      = Some "updateOperation is undefined."
      /\ log (final (run (Part001.updateFunc clock c u blacklist) q n))
         = [EvNow (clock n)]
      /\ thrown_message (run (SrcIndex.updateFunc clock c u blacklist) q n)
         = Some "updateOperation is undefined."
      /\ log (final (run (SrcIndex.updateFunc clock c u blacklist) q n))
         = [EvNow (clock n)]).
Proof.
  destruct q as [[op|]].
  - rewrite Part001_updateFunc_run, SrcIndex_updateFunc_run.
    destruct (_ || _); cbn; repeat split; try discriminate; try reflexivity.
  - rewrite Part001_updateFunc_no_update, SrcIndex_updateFunc_no_update.
    cbn. repeat split; reflexivity.
Qed.

Lemma clause_covered_keys (blacklist : list string) (clause : option Fields) :
  clause_covered blacklist clause <->
  exists key, In key (Object_keys (with_default [] clause))
              /\ fieldIsBlacklisted blacklist key = true.
Proof.
  split.
  - intros (fields & key & -> & HIn & Hk). exists key. auto.
  - intros (key & HIn & Hk). destruct clause as [fields|]; [|destruct HIn].
    exists fields, key. auto.
Qed.

Lemma update_verdict_written_keys (blacklist : list string) (op : UpdateOp) :
  and_then (obj_get op SET_OPERATOR)
    (fun f => blacklistedFieldExists (Some blacklist) (Some f))
  || and_then (obj_get op SET_ON_INSERT_OPERATOR)
       (fun f => blacklistedFieldExists (Some blacklist) (Some f)) = true
  <->
  exists key E, In key (written_keys op) /\ In E blacklist /\ E <> ""
                /\ (key = E \/ prefix (E ++ ".") key = true).
Proof.
  rewrite orb_true_iff, !and_then_covered, !clause_covered_keys.
  unfold written_keys. split.
  - intros [(key & HIn & Hk) | (key & HIn & Hk)];
      apply fieldIsBlacklisted_covers in Hk; destruct Hk as (E & HE & Hne & Hc);
      exists key, E; (split; [apply in_or_app; auto | auto]).
  - intros (key & E & HIn & HE & Hne & Hc).
    assert (Hk : fieldIsBlacklisted blacklist key = true).
    { apply fieldIsBlacklisted_covers. exists E. auto. }
    apply in_app_or in HIn. destruct HIn as [HIn | HIn]; [left | right];
      exists key; auto.
Qed.

(** X19: the update hook hands no clause to the host exactly when some path
    written by the [$set] or the [$setOnInsert] clause of the update is a
    non-empty blacklist entry or lies under one; in every other case it
    hands over exactly one document.  Both revisions. *)
Theorem updateFunc_skips_iff_written_key_covered (clock : nat -> instant)
    (c u : string) (blacklist : list string) (op : UpdateOp) (n : nat) :
  ((exists key E, In key (written_keys op) /\ In E blacklist /\ E <> ""
                  /\ (key = E \/ prefix (E ++ ".") key = true))
   <-> updates_of (log (final (run (Part001.updateFunc clock c u blacklist)
                                   (mkQuery (Some op)) n))) = [])
  /\
  ((exists key E, In key (written_keys op) /\ In E blacklist /\ E <> ""
                  /\ (key = E \/ prefix (E ++ ".") key = true))
   <-> updates_of (log (final (run (SrcIndex.updateFunc clock c u blacklist)
                                   (mkQuery (Some op)) n))) = [])
  /\
  List.length (updates_of (log (final (run (Part001.updateFunc clock c u blacklist)
                                           (mkQuery (Some op)) n)))) <= 1
  /\
  List.length (updates_of (log (final (run (SrcIndex.updateFunc clock c u blacklist)
                                           (mkQuery (Some op)) n)))) <= 1.
Proof.
  rewrite <- update_verdict_written_keys.
  rewrite Part001_updateFunc_run, SrcIndex_updateFunc_run.
  destruct (_ || _); cbn; repeat split; try discriminate; auto.
Qed.

(** X20: the update hook looks at the [$set] and the [$setOnInsert] clause
    only: two updates that agree on these two clauses get the same treatment,
    so a blacklisted path written through any other operator, or through a
    replacement document without operators, does not keep the hook from
    stamping. *)
Theorem updateFunc_inspects_two_clauses_only (clock : nat -> instant)
    (c u : string) (blacklist : list string) (op1 op2 : UpdateOp) (n : nat) :
  obj_get op1 SET_OPERATOR = obj_get op2 SET_OPERATOR ->
  obj_get op1 SET_ON_INSERT_OPERATOR = obj_get op2 SET_ON_INSERT_OPERATOR ->
  log (final (run (Part001.updateFunc clock c u blacklist) (mkQuery (Some op1)) n))
  = log (final (run (Part001.updateFunc clock c u blacklist) (mkQuery (Some op2)) n))
  /\
  log (final (run (SrcIndex.updateFunc clock c u blacklist) (mkQuery (Some op1)) n))
  = log (final (run (SrcIndex.updateFunc clock c u blacklist) (mkQuery (Some op2)) n)).
Proof.
  intros Hs Hi. rewrite !Part001_updateFunc_run, !SrcIndex_updateFunc_run, Hs, Hi.
  destruct (_ || _); split; reflexivity.
Qed.

Lemma updateFunc_inspects_two_clauses_only_witness :
  log (final (run (Part001.updateFunc (fun _ => 1000%Z) "createdAt" "updatedAt" ["foo"])
                  (mkQuery (Some [("$inc", [("foo", VNum 1)])])) 0))
  = log (final (run (Part001.updateFunc (fun _ => 1000%Z) "createdAt" "updatedAt" ["foo"])
                    (mkQuery (Some [])) 0)).
Proof.
  apply (updateFunc_inspects_two_clauses_only (fun _ => 1000%Z) "createdAt" "updatedAt"
           ["foo"] [("$inc", [("foo", VNum 1)])] [] 0 eq_refl eq_refl).
Defined.

(** X21: the two revisions agree wherever the later one adds no switch: with
    [disableSaveHook] unset the later save hook behaves exactly as the
    earlier one, and the two update hooks behave alike whenever the update is
    covered, the query carries no update, or one name serves as both
    fields. *)
Theorem revisions_agree (clock : nat -> instant) (c u : string)
    (f : bool) (blacklist : list string) (n : nat) :
  (forall doc : Doc,
      run (Part001.saveFunc clock c u false f) doc n
      = run (SrcIndex.saveFunc clock c u) doc n)
  /\
  (forall q : Query,
      updates_of (log (final (run (Part001.updateFunc clock c u blacklist) q n))) = []
      \/ c = u ->
      run (Part001.updateFunc clock c u blacklist) q n
      = run (SrcIndex.updateFunc clock c u blacklist) q n).
Proof.
  split.
  - intros doc. rewrite Part001_saveFunc_run, SrcIndex_saveFunc_run. reflexivity.
  - intros [[op|]] H; [|reflexivity].
    rewrite Part001_updateFunc_run, SrcIndex_updateFunc_run in *.
    destruct (_ || _); [reflexivity|].
    destruct H as [H | ->]; [discriminate H|].
    unfold stamp_later, stamp_earlier. rewrite String.eqb_refl. reflexivity.
Qed.

Lemma revisions_agree_witness :
  run (Part001.updateFunc (fun _ => 1000%Z) "stamp" "stamp" []) (mkQuery (Some [])) 0
  = run (SrcIndex.updateFunc (fun _ => 1000%Z) "stamp" "stamp" []) (mkQuery (Some [])) 0.
Proof.
  apply (proj2 (revisions_agree (fun _ => 1000%Z) "stamp" "stamp" false [] 0)
               (mkQuery (Some []))).
  right. reflexivity.
Defined.
